(** * Outline extraction of [process_pdfs.py]: a shallow embedding

    The development follows [extract_outline_from_pdf] and [process_pdfs]
    statement by statement.

    - A Python [str] is the list of its code points ([pystr]). What
      Python reads from the Unicode character database (the character
      classes behind [isalpha], [isspace], [isnumeric], [istitle],
      [isupper] and the regular expressions, and the case mappings
      [lower] and [upper]) is a parameter, the class [PyStr.Unicode]:
      every general statement holds for every such database. Concrete
      texts are evaluated with [ascii_db], its restriction to ASCII,
      which is what Python computes on texts of ASCII characters.
    - Python [float] values are binary64 primitive floats, so that
      [body_font_size * 1.1] rounds as it does in CPython.
    - Exceptions are values of an error monad [result]; the [try] of
      [extract_outline_from_pdf] is the [match] on the body's result.
    - The parsing library is the environment: [fitz.open] yields either
      an exception or a [Document] with the metadata title, the table of
      contents and the pages. The spans of [get_text("dict")] have the
      key ["text"]; those of [get_text("rawdict")] have ["chars"] in its
      place, so that [span["text"]] raises a [KeyError] there. *)

From Stdlib Require Import ZArith NArith List String Ascii Bool Lia Floats
  Sorted Permutation.
Import ListNotations.

Set Warnings "-inexact-float".

Local Open Scope string_scope.
Local Open Scope list_scope.
Local Open Scope Z_scope.

(** ** Python strings *)

Module PyStr.

(** A character is a code point, a string the list of its characters. *)
Definition char := N.
Definition pystr := list char.

(** The character and the string written in ASCII. *)
Definition ch (a : ascii) : char := N_of_ascii a.
Definition lit (s : string) : pystr := map ch (list_ascii_of_string s).

(** The Unicode character database as Python consults it:
    [Py_UNICODE_ISSPACE], [ISALPHA], [ISDECIMAL], [ISNUMERIC],
    [ISUPPER], [ISLOWER] and [ISTITLE] on a character, and the case
    mappings [str.lower] and [str.upper] on a string. *)
Class Unicode := {
  isspace : char -> bool;
  isalpha : char -> bool;
  isdecimal : char -> bool;
  isnumeric_char : char -> bool;
  isupper_char : char -> bool;
  islower_char : char -> bool;
  istitle_char : char -> bool;
  lower : pystr -> pystr;
  upper : pystr -> pystr
}.

Definition between (lo hi c : N) : bool := (N.leb lo c && N.leb c hi)%bool.

Section Strings.
Context {U : Unicode}.

Definition is_empty (s : pystr) : bool :=
  match s with [] => true | _ => false end.

Fixpoint lstrip (s : pystr) : pystr :=
  match s with
  | [] => []
  | c :: r => if isspace c then lstrip r else s
  end.

Fixpoint rstrip (s : pystr) : pystr :=
  match s with
  | [] => []
  | c :: r =>
      let r' := rstrip r in
      if (isspace c && is_empty r')%bool then [] else c :: r'
  end.

(** [s.strip()] *)
Definition strip (s : pystr) : pystr := rstrip (lstrip s).

(** [s.startswith(p)] *)
Fixpoint startswith (p s : pystr) : bool :=
  match p, s with
  | [], _ => true
  | a :: p', b :: s' => (N.eqb a b && startswith p' s')%bool
  | _ :: _, [] => false
  end.

(** [needle in hay] for two strings *)
Fixpoint contains (needle hay : pystr) : bool :=
  (startswith needle hay ||
   match hay with
   | [] => false
   | _ :: r => contains needle r
   end)%bool.

(** [s.split(sep)] for a one-character separator *)
Fixpoint split (sep : char) (s : pystr) : list pystr :=
  match s with
  | [] => [[]]
  | c :: r =>
      if N.eqb c sep then [] :: split sep r
      else match split sep r with
           | [] => [[c]]
           | h :: t => (c :: h) :: t
           end
  end.

(** [a == b] on two strings *)
Fixpoint eqb (a b : pystr) : bool :=
  match a, b with
  | [], [] => true
  | x :: a', y :: b' => (N.eqb x y && eqb a' b')%bool
  | _, _ => false
  end.

(** [x in l] for a list of strings *)
Definition mem (x : pystr) (l : list pystr) : bool := existsb (eqb x) l.

(** [len(s)]: the number of characters. *)
Definition len (s : pystr) : Z := Z.of_nat (List.length s).

(** [s.isnumeric()] *)
Definition isnumeric (s : pystr) : bool :=
  (negb (is_empty s) && forallb isnumeric_char s)%bool.

(** [s.istitle()]: CPython's loop, [prev] being [previous_is_cased]
    and [cased] the flag returned at the end. *)
Fixpoint istitle_from (prev cased : bool) (s : pystr) : bool :=
  match s with
  | [] => cased
  | c :: r =>
      if (isupper_char c || istitle_char c)%bool then
        if prev then false else istitle_from true true r
      else if islower_char c then
        if prev then istitle_from true true r else false
      else istitle_from false cased r
  end.

Definition istitle (s : pystr) : bool := istitle_from false false s.

(** [s.isupper()]: no lowercase or titlecase character, and an
    uppercase one; a string of one character is tested for uppercase
    alone. *)
Definition isupper (s : pystr) : bool :=
  match s with
  | [c] => isupper_char c
  | _ => (negb (existsb (fun c => islower_char c || istitle_char c) s)
          && existsb isupper_char s)%bool
  end.

Definition newline : char := 10%N.
Definition period : char := ch ".".

(** [$] without [re.MULTILINE]: at the end, or before a last newline. *)
Definition at_dollar (s : pystr) : bool :=
  match s with
  | [] => true
  | [c] => N.eqb c newline
  | _ => false
  end.

(** [\s*$]: some white space, then [$]. *)
Fixpoint spaces_dollar (s : pystr) : bool :=
  (at_dollar s ||
   match s with
   | [] => false
   | c :: r => isspace c && spaces_dollar r
   end)%bool.

(** [p*\.k]: characters of the class [p], a period, then [k]. *)
Fixpoint class_star_period (p : char -> bool) (k : pystr -> bool)
    (s : pystr) : bool :=
  match s with
  | [] => false
  | c :: r => ((N.eqb c period && k r) || (p c && class_star_period p k r))%bool
  end.

(** [p+\.k] *)
Definition class_plus_period (p : char -> bool) (k : pystr -> bool)
    (s : pystr) : bool :=
  match s with
  | [] => false
  | c :: r => (p c && class_star_period p k r)%bool
  end.

(** [re.match(r"^\d+\.\s*$", s)] *)
Definition match_number_period (s : pystr) : bool :=
  class_plus_period isdecimal spaces_dollar s.

Definition is_roman_char (c : char) : bool :=
  existsb (N.eqb c) (lit "IVXLCDM").

(** [re.match(r"^[IVXLCDM]+\.$", s)] *)
Definition match_roman_period (s : pystr) : bool :=
  class_plus_period is_roman_char at_dollar s.

End Strings.

(** The database restricted to ASCII: TAB..CR, FS..US and SPACE are
    white space, the letters A-Z and a-z are alphabetic and cased, the
    digits 0-9 are decimal and numeric; every other code point is in no
    class and is its own lowercase and uppercase. *)
Definition ascii_lower_char (c : char) : char :=
  if between 65 90 c then (c + 32)%N else c.

Definition ascii_upper_char (c : char) : char :=
  if between 97 122 c then (c - 32)%N else c.

Definition ascii_db : Unicode := {|
  isspace := fun c => (between 9 13 c || between 28 32 c)%bool;
  isalpha := fun c => (between 65 90 c || between 97 122 c)%bool;
  isdecimal := between 48 57;
  isnumeric_char := between 48 57;
  isupper_char := between 65 90;
  islower_char := between 97 122;
  istitle_char := fun _ => false;
  lower := map ascii_lower_char;
  upper := map ascii_upper_char
|}.

End PyStr.

Abbreviation pystr := PyStr.pystr.
Abbreviation lit := PyStr.lit.
Abbreviation ascii_db := PyStr.ascii_db.

(** ** Exceptions *)

Inductive exn_class := ImportError | TypeError | KeyError | OtherException.

(** An exception: its class and [str(e)]. *)
Record exn := Exn { exn_cls : exn_class; exn_msg : pystr }.

Inductive result (A : Type) :=
| Ok (a : A)
| Raise (e : exn).
Arguments Ok {A} a.
Arguments Raise {A} e.

Definition bind {A B} (m : result A) (k : A -> result B) : result B :=
  match m with
  | Ok a => k a
  | Raise e => Raise e
  end.

Notation "x <- m ;; k" := (bind m (fun x => k))
  (at level 61, m at next level, right associativity).

(** A [for] loop whose body may raise, threading the loop state. *)
Fixpoint for_each {A S} (body : S -> A -> result S) (l : list A) (s : S)
  : result S :=
  match l with
  | [] => Ok s
  | x :: r => s' <- body s x ;; for_each body r s'
  end.

(** ** Python floats *)

Module PyFloat.

(** [n / d] rounded to the nearest integer, ties to even ([0 <= n], [0 < d]). *)
Definition round_half_even (n d : Z) : Z :=
  let q := n / d in
  match (2 * (n mod d) ?= d) with
  | Lt => q
  | Gt => q + 1
  | Eq => if Z.even q then q else q + 1
  end.

(** [round(x, 1)]: CPython rounds the exact binary value of [x] to one
    decimal, ties to even, and returns the double nearest to that
    decimal; infinities, NaN and integral values round to themselves.
    With [k] the number of tenths, the correctly rounded quotient
    [k / 10] is that double as long as [k < 2^53] (sizes below [9e14]). *)
Definition round1 (x : float) : float :=
  if negb (is_finite x) then x
  else match Prim2SF x with
       | S754_finite s m e =>
           if 0 <=? e then x
           else
             let k := round_half_even (10 * Z.pos m) (2 ^ (- e)) in
             let r := (of_uint63 (Uint63.of_Z k) / 10)%float in
             if s then (- r)%float else r
       | _ => x
       end.

End PyFloat.

(** ** Insertion-ordered dictionaries *)

Section Dict.
Context {K V : Type} (keq : K -> K -> bool).

Definition dict := list (K * V).

(** [d.get(k)] *)
Fixpoint dict_get (k : K) (d : dict) : option V :=
  match d with
  | [] => None
  | (k', v) :: r => if keq k k' then Some v else dict_get k r
  end.

(** [k in d] *)
Definition dict_mem (k : K) (d : dict) : bool :=
  match dict_get k d with Some _ => true | None => false end.

(** [d[k] = v]: an existing key keeps its place, a new one goes last. *)
Fixpoint dict_set (k : K) (v : V) (d : dict) : dict :=
  match d with
  | [] => [(k, v)]
  | (k', v') :: r =>
      if keq k k' then (k', v) :: r else (k', v') :: dict_set k v r
  end.
End Dict.

(** ** The document as the parsing library presents it *)

Record BBox := { x0 : float; y0 : float; x1 : float; y1 : float }.

(** A span of a line: its characters, font name, size, style flags and
    bounding box. *)
Module Span.
Record t := { text : pystr; font : pystr; size : float;
              flags : Z; bbox : BBox }.
End Span.

Record Line := { spans : list Span.t }.
Record Block := { type : Z; lines : list Line }.
Record Page := { blocks : list Block }.

Record Document := {
  metadata_title : option pystr;   (* [doc.metadata.get("title")] *)
  get_toc : list (Z * pystr * Z);  (* [doc.get_toc()] *)
  pages : list Page                (* [doc.load_page(0 .. page_count-1)] *)
}.

Definition page_count (doc : Document) : Z := Z.of_nat (List.length (pages doc)).

(** The two ways the code asks a page for its text. *)
Inductive text_mode := dict_mode | rawdict_mode.

Definition key_error_text : exn := Exn KeyError (lit "'text'").

(** [span["text"]] on a span of [page.get_text(mode)]: the characters
    in ["dict"] mode; a [KeyError] in ["rawdict"] mode, where the span
    has the key ["chars"] and no key ["text"]. *)
Definition span_text (mode : text_mode) (span : Span.t) : result pystr :=
  match mode with
  | dict_mode => Ok (Span.text span)
  | rawdict_mode => Raise key_error_text
  end.

(** ** The output *)

Inductive Level := H1 | H2 | H3.

Definition level_name (l : Level) : string :=
  match l with H1 => "H1" | H2 => "H2" | H3 => "H3" end.

(** The dictionaries of [temp_outline_candidates]. *)
Module Candidate.
Record t := { level : Level; text : pystr; page : Z; bbox : BBox }.
End Candidate.

(** The dictionaries of [outline_entries]; [bbox] is [Some b] when the
    dictionary has a ["bbox"] key. *)
Module Entry.
Record t := { level : Level; text : pystr; page : Z;
              bbox : option BBox }.

(** [list(entry.keys())] *)
Definition keys (e : t) : list string :=
  ["level"; "text"; "page"] ++
  match bbox e with Some _ => ["bbox"] | None => [] end.
End Entry.

Record Artifact := { title : pystr; outline : list Entry.t }.

(** [outline_entries.append(entry)] of the heuristic path appends the
    candidate's own dictionary. *)
Definition as_entry (c : Candidate.t) : Entry.t :=
  {| Entry.level := Candidate.level c; Entry.text := Candidate.text c;
     Entry.page := Candidate.page c; Entry.bbox := Some (Candidate.bbox c) |}.

(** A file of the input directory: its [stem] and what opening it gives. *)
Record PdfFile := { stem : pystr; opened : result Document }.

(** ** Scanning order *)

(** The spans the two scans visit on a page: those of the text blocks
    ([b["type"] == 0]), block by block and line by line. *)
Definition block_spans (b : Block) : list Span.t :=
  if type b =? 0 then flat_map spans (lines b) else [].

Definition page_spans (p : Page) : list Span.t :=
  flat_map block_spans (blocks p).

(** [for page_num in range(doc.page_count)]: every span with its
    [page_num], counted from [start]. *)
Fixpoint numbered_spans (start : Z) (ps : list Page) : list (Z * Span.t) :=
  match ps with
  | [] => []
  | p :: r =>
      map (fun s => (start, s)) (page_spans p) ++ numbered_spans (start + 1) r
  end.

Definition doc_spans (doc : Document) : list (Z * Span.t) :=
  numbered_spans 0 (pages doc).

(** ** Font statistics: the dictionaries (lines 56-57 and 70-75) *)

Record Counts := { bold : Z; normal : Z }.

(** [{font_name: {size: {"bold": n, "normal": n}}}] *)
Definition FontStyles := list (pystr * list (float * Counts)).

Definition float_eqb (a b : float) : bool := (a =? b)%float.

Definition sizes_of (font_name : pystr) (font_styles : FontStyles)
  : list (float * Counts) :=
  match dict_get PyStr.eqb font_name font_styles with
  | Some sizes => sizes
  | None => []
  end.

Definition counts_of (size : float) (sizes : list (float * Counts)) : Counts :=
  match dict_get float_eqb size sizes with
  | Some c => c
  | None => {| bold := 0; normal := 0 |}
  end.

(** Lines 70-75 for one span. *)
Definition font_styles_add (font_styles : FontStyles) (font_name : pystr)
    (size : float) (is_bold : bool) (n : Z) : FontStyles :=
  let font_styles :=
    if dict_mem PyStr.eqb font_name font_styles then font_styles
    else dict_set PyStr.eqb font_name [] font_styles in
  let sizes := sizes_of font_name font_styles in
  let sizes :=
    if dict_mem float_eqb size sizes then sizes
    else dict_set float_eqb size {| bold := 0; normal := 0 |} sizes in
  let c := counts_of size sizes in
  let c := if is_bold then {| bold := bold c + n; normal := normal c |}
           else {| bold := bold c; normal := normal c + n |} in
  dict_set PyStr.eqb font_name (dict_set float_eqb size c sizes) font_styles.

Record Stats := { font_styles : FontStyles; all_sizes : list float }.

Definition empty_stats : Stats := {| font_styles := []; all_sizes := [] |}.

(** ** Body size and thresholds (lines 79-108) *)

(** [Counter(l)]: one entry per distinct value, in order of first
    occurrence, with its number of occurrences. *)
Definition counter_step (c : list (float * Z)) (x : float) : list (float * Z) :=
  dict_set float_eqb x
    (match dict_get float_eqb x c with Some n => n + 1 | None => 1 end) c.

Definition Counter (l : list float) : list (float * Z) :=
  fold_left counter_step l [].

(** [max(items, key=itemgetter(1))]: the first item of largest count. *)
Fixpoint max_count (best : float * Z) (items : list (float * Z)) : float * Z :=
  match items with
  | [] => best
  | it :: r => max_count (if snd best <? snd it then it else best) r
  end.

(** [Counter(all_sizes).most_common(1)[0][0]] for a non-empty list. *)
Definition most_common_size (all_sizes : list float) : float :=
  match Counter all_sizes with
  | [] => 0%float
  | it :: r => fst (max_count it r)
  end.

(** The pairs [(size, data)] in the order of the two nested loops of
    lines 86-87. *)
Definition style_items (font_styles : FontStyles) : list (float * Counts) :=
  flat_map snd font_styles.

(** Lines 85-90, the state being [(max_normal_chars, body_font_size)]. *)
Definition refine_step (st : Z * float) (it : float * Counts) : Z * float :=
  if fst st <? normal (snd it) then (normal (snd it), fst it) else st.

Definition refine_body (font_styles : FontStyles) (body_font_size : float)
  : float :=
  snd (fold_left refine_step (style_items font_styles) (0, body_font_size)).

Definition is_nil {A} (l : list A) : bool :=
  match l with [] => true | _ => false end.

(** Lines 79-93. *)
Definition estimate_body (st : Stats) : float :=
  let body_font_size :=
    if is_nil (all_sizes st) then 0%float
    else refine_body (font_styles st) (most_common_size (all_sizes st)) in
  if ((body_font_size =? 0)%float && negb (is_nil (all_sizes st)))%bool
  then most_common_size (all_sizes st)
  else body_font_size.

Definition H1_FACTOR : float := 1.6.
Definition H2_FACTOR : float := 1.3.
Definition H3_FACTOR : float := 1.1.

Record Thresholds := {
  h1_threshold : float; h2_threshold : float; h3_threshold : float
}.

Definition thresholds (body_font_size : float) : Thresholds :=
  {| h1_threshold := (body_font_size * H1_FACTOR)%float;
     h2_threshold := (body_font_size * H2_FACTOR)%float;
     h3_threshold := (body_font_size * H3_FACTOR)%float |}.

(** ** Ordering (line 168) *)

(** [(x["page"], x["bbox"][1])] *)
Definition sort_key (c : Candidate.t) : Z * float :=
  (Candidate.page c, y0 (Candidate.bbox c)).

(** [a < b] on two such tuples: decided at the first component that
    differs. *)
Definition key_lt (a b : Z * float) : bool :=
  if negb (fst a =? fst b) then fst a <? fst b
  else if negb (snd a =? snd b)%float then (snd a <? snd b)%float
  else false.

(** [list.sort(key=...)] is a stable sort; on keys without NaN every
    stable sort yields the list computed here, by insertion from the
    right. *)
Fixpoint insert_by_key (x : Candidate.t) (l : list Candidate.t)
  : list Candidate.t :=
  match l with
  | [] => [x]
  | y :: r =>
      if key_lt (sort_key y) (sort_key x) then y :: insert_by_key x r
      else x :: l
  end.

Fixpoint sort_candidates (l : list Candidate.t) : list Candidate.t :=
  match l with
  | [] => []
  | x :: r => insert_by_key x (sort_candidates r)
  end.

Definition level_eqb (a b : Level) : bool :=
  match a, b with
  | H1, H1 | H2, H2 | H3, H3 => true
  | _, _ => false
  end.

Definition ukey_eqb (a b : Level * pystr * Z) : bool :=
  let '(l1, t1, p1) := a in
  let '(l2, t2, p2) := b in
  (level_eqb l1 l2 && PyStr.eqb t1 t2 && (p1 =? p2))%bool.

(** ** The error artifact (lines 187-199) *)

Definition error_entry (message : pystr) : Entry.t :=
  {| Entry.level := H1; Entry.text := message; Entry.page := 1;
     Entry.bbox := None |}.

Definition error_title (stem : pystr) : pystr :=
  lit "Processing Error for " ++ stem.

(** The two [except] clauses. *)
Definition handle (stem : pystr) (e : exn) : Artifact :=
  match exn_cls e with
  | ImportError =>
      {| title := error_title stem;
         outline :=
           [error_entry (lit "PyMuPDF not found. Please install it.")] |}
  | _ =>
      {| title := error_title stem;
         outline := [error_entry (lit "Error: " ++ exn_msg e)] |}
  end.

Definition int_not_iterable : exn :=
  Exn TypeError (lit "argument of type 'int' is not iterable").

(** [x in n] where [n] is an [int]: integers are no containers. *)
Definition str_in_int (x : pystr) (n : Z) : result bool :=
  Raise int_not_iterable.

Section Program.
Context {U : PyStr.Unicode}.

(** ** Title from the metadata (lines 12-23) *)

Definition initial_title (stem : pystr) (doc : Document) : pystr :=
  match metadata_title doc with
  | Some t =>
      if PyStr.is_empty t then stem
      else let extracted_title := PyStr.strip t in
           if PyStr.is_empty extracted_title then stem else extracted_title
  | None => stem
  end.

(** ** The table-of-contents path (lines 26-50) *)

Definition heading_level (level : Z) : Level :=
  if level =? 2 then H2 else if 3 <=? level then H3 else H1.

Definition toc_keep (clean_text : pystr) : bool :=
  (negb (PyStr.is_empty clean_text) && existsb PyStr.isalpha clean_text)%bool.

Definition toc_entry (item : Z * pystr * Z) : list Entry.t :=
  let '(level, text, page) := item in
  let clean_text := PyStr.strip text in
  if toc_keep clean_text
  then [{| Entry.level := heading_level level; Entry.text := clean_text;
           Entry.page := page; Entry.bbox := None |}]
  else [].

Definition toc_outline (toc : list (Z * pystr * Z)) : list Entry.t :=
  flat_map toc_entry toc.

(** ** The boldness test (lines 68 and 130) *)

(** ["bold" in font_name.lower() or "b" in span["flags"]
     or "b" in font_name.lower().split('-')] *)
Definition is_bold (span : Span.t) : result bool :=
  let font_name := Span.font span in
  if PyStr.contains (lit "bold") (PyStr.lower font_name) then Ok true
  else
    by_flags <- str_in_int (lit "b") (Span.flags span) ;;
    if by_flags then Ok true
    else Ok (PyStr.mem (lit "b")
               (PyStr.split (PyStr.ch "-") (PyStr.lower font_name))).

(** ** Font statistics (lines 59-76) *)

(** The body of the first scan for one span of [get_text("dict")]. *)
Definition stats_step (st : Stats) (item : Z * Span.t) : result Stats :=
  let span := snd item in
  let font_name := Span.font span in
  let size := PyFloat.round1 (Span.size span) in
  b <- is_bold span ;;
  text <- span_text dict_mode span ;;
  Ok {| font_styles :=
          font_styles_add (font_styles st) font_name size b (PyStr.len text);
        all_sizes := all_sizes st ++ [size] |}.

Definition collect_stats (doc : Document) : result Stats :=
  for_each stats_step (doc_spans doc) empty_stats.

(** ** Filtering and classification (lines 127-162) *)

Definition NOISE_LITERAL : pystr := lit "G.MAMATHA, CET, CBIT".

Definition NOISE_PREFIXES : list pystr :=
  map lit ["figure"; "table"; "formula"; "example"; "g.mamatha"; "source:"].

(** The condition of lines 133-137: the span is skipped when it holds. *)
Definition is_noise (text : pystr) : bool :=
  (PyStr.is_empty text
   || (PyStr.len text <? 5)
   || PyStr.isnumeric text
   || PyStr.match_number_period text
   || PyStr.match_roman_period text
   || PyStr.contains NOISE_LITERAL text
   || existsb (fun p => PyStr.startswith p (PyStr.lower text)) NOISE_PREFIXES)%bool.

(** Lines 140-154. *)
Definition classify (body_font_size : float) (th : Thresholds)
    (font_size : float) (is_bold : bool) (text : pystr) : option Level :=
  if ((h1_threshold th <=? font_size)%float && is_bold)%bool then Some H1
  else if ((h2_threshold th <=? font_size)%float && is_bold)%bool then Some H2
  else if ((h3_threshold th <=? font_size)%float && is_bold)%bool then Some H3
  else if ((body_font_size <? font_size)%float
           && (PyStr.istitle text || PyStr.isupper text))%bool then
    if (h2_threshold th <=? font_size)%float then Some H2 else Some H3
  else None.

(** Lines 127-162 once [span["text"]] has given [raw_text]. *)
Definition classify_span (body_font_size : float) (th : Thresholds)
    (cands : list Candidate.t) (page_num : Z) (span : Span.t)
    (raw_text : pystr) : result (list Candidate.t) :=
  let text := PyStr.strip raw_text in
  let font_size := PyFloat.round1 (Span.size span) in
  b <- is_bold span ;;
  if is_noise text then Ok cands
  else match classify body_font_size th font_size b text with
       | Some level =>
           Ok (cands ++ [{| Candidate.level := level; Candidate.text := text;
                            Candidate.page := page_num + 1;
                            Candidate.bbox := Span.bbox span |}])
       | None => Ok cands
       end.

(** The body of the second scan for one span of [get_text("rawdict")]:
    line 127 looks up [span["text"]] first. *)
Definition classify_step (body_font_size : float) (th : Thresholds)
    (cands : list Candidate.t) (item : Z * Span.t)
  : result (list Candidate.t) :=
  let '(page_num, span) := item in
  raw_text <- span_text rawdict_mode span ;;
  classify_span body_font_size th cands page_num span raw_text.

Definition collect_candidates (doc : Document) (body_font_size : float)
  : result (list Candidate.t) :=
  for_each (classify_step body_font_size (thresholds body_font_size))
    (doc_spans doc) [].

(** ** Deduplication and title (lines 170-185) *)

(** [(entry["level"], entry["text"].lower(), entry["page"])] *)
Definition unique_key (c : Candidate.t) : Level * pystr * Z :=
  (Candidate.level c, PyStr.lower (Candidate.text c), Candidate.page c).

(** The loop of lines 171-176; [seen] is [seen_entries], the result the
    entries appended to [outline_entries]. *)
Fixpoint dedup (seen : list (Level * pystr * Z)) (l : list Candidate.t)
  : list Candidate.t :=
  match l with
  | [] => []
  | entry :: r =>
      if existsb (ukey_eqb (unique_key entry)) seen then dedup seen r
      else entry :: dedup (unique_key entry :: seen) r
  end.

(** Lines 179-185. *)
Definition resolve_title (stem title : pystr) (outline_entries : list Entry.t)
  : pystr :=
  match outline_entries with
  | first :: _ =>
      if (PyStr.eqb title stem && (Entry.page first =? 1))%bool then
        let title :=
          if (level_eqb (Entry.level first) H1
              && (PyStr.len (Entry.text first) <? 50))%bool
          then Entry.text first else title in
        if (PyStr.contains (lit "UNIT-IV") (PyStr.upper title)
            && (Entry.page first =? 1))%bool
        then lit "UNIT-IV" else title
      else title
  | [] => title
  end.

(** Lines 166-185 and 204-207. *)
Definition sequence (stem title : pystr) (cands : list Candidate.t)
  : Artifact :=
  let outline_entries := map as_entry (dedup [] (sort_candidates cands)) in
  {| title := resolve_title stem title outline_entries;
     outline := outline_entries |}.

(** ** [extract_outline_from_pdf] *)

(** The heuristic path, lines 52-185 and 204-207. *)
Definition heuristic_outline (stem title : pystr) (doc : Document)
  : result Artifact :=
  st <- collect_stats doc ;;
  let body_font_size := estimate_body st in
  if (body_font_size =? 0)%float then Ok {| title := title; outline := [] |}
  else
    cands <- collect_candidates doc body_font_size ;;
    Ok (sequence stem title cands).

(** The [try] block; [opened] is the outcome of [fitz.open(pdf_path)]. *)
Definition try_body (stem : pystr) (opened : result Document)
  : result Artifact :=
  doc <- opened ;;
  let title := initial_title stem doc in
  if negb (is_nil (get_toc doc))
  then Ok {| title := title; outline := toc_outline (get_toc doc) |}
  else heuristic_outline stem title doc.

Definition extract_outline_from_pdf (stem : pystr) (opened : result Document)
  : Artifact :=
  match try_body stem opened with
  | Ok data => data
  | Raise e => handle stem e
  end.

(** ** [process_pdfs] *)

(** The body of the loop of lines 230-243. [written] is the list of the
    files written so far, [(output_file.name, extracted_data)]; a file
    that cannot be written ([writable] is false: [open] or [json.dump]
    raises, and the exception is caught and reported) is left out. *)
Definition process_one (writable : pystr -> bool)
    (written : list (pystr * Artifact)) (pdf_file : PdfFile)
  : list (pystr * Artifact) :=
  let extracted_data :=
    extract_outline_from_pdf (stem pdf_file) (opened pdf_file) in
  let output_file := stem pdf_file ++ lit ".json" in
  if writable output_file then written ++ [(output_file, extracted_data)]
  else written.

Definition process_pdfs (writable : pystr -> bool) (pdf_files : list PdfFile)
  : list (pystr * Artifact) :=
  fold_left (process_one writable) pdf_files [].

End Program.

(** ** Vocabulary of the statements *)

(** [span] is a span of a line of a text block of page number [n]
    (counted from 0) of [doc]. *)
Definition text_span (doc : Document) (n : nat) (span : Span.t) : Prop :=
  exists p b l,
    nth_error (pages doc) n = Some p /\ In b (blocks p) /\ type b = 0 /\
    In l (lines b) /\ In span (spans l).

(** The number of occurrences of [x] in [l], as [==] on floats counts. *)
Definition occurrences (x : float) (l : list float) : Z :=
  Z.of_nat (List.length (filter (float_eqb x) l)).

Definition not_nan (x : float) : Prop := is_nan x = false.

(** The artifact of a failed document. *)
Definition error_artifact (stem message : pystr) : Artifact :=
  {| title := lit "Processing Error for " ++ stem;
     outline := [{| Entry.level := H1; Entry.text := message;
                    Entry.page := 1; Entry.bbox := None |}] |}.

(** The order of the sequencer: by page, then by vertical position. *)
Definition cand_le (a b : Candidate.t) : Prop :=
  Candidate.page a <= Candidate.page b /\
  (Candidate.page a = Candidate.page b ->
   (y0 (Candidate.bbox a) <=? y0 (Candidate.bbox b))%float = true).

(** Two sort keys are equal: same page, same position. *)
Definition key_eqb (a b : Z * float) : bool :=
  ((fst a =? fst b) && (snd a =? snd b)%float)%bool.

(** The same order on the emitted dictionaries. *)
Definition entry_le (a b : Entry.t) : Prop :=
  Entry.page a <= Entry.page b /\
  (Entry.page a = Entry.page b ->
   forall ba bb, Entry.bbox a = Some ba -> Entry.bbox b = Some bb ->
                 (y0 ba <=? y0 bb)%float = true).

(** The vertical position of a candidate is a number. *)
Definition cand_not_nan (c : Candidate.t) : Prop :=
  not_nan (y0 (Candidate.bbox c)).

(** The distinct values of [l] in order of first occurrence, those equal
    to a member of [seen] left out. *)
Fixpoint firsts (seen l : list float) : list float :=
  match l with
  | [] => []
  | x :: r =>
      if existsb (float_eqb x) seen then firsts seen r
      else x :: firsts (seen ++ [x]) r
  end.

(** Keys no two of which are equal. *)
Definition distinct (ks : list float) : Prop :=
  ForallOrdPairs (fun a b => (a =? b)%float = false) ks.

(** What [counter_step] does to an entry whose key is there already. *)
Definition bump_one (x : float) (it : float * Z) : float * Z :=
  if float_eqb x (fst it) then (fst it, snd it + 1) else it.

(** No character was counted as normal. *)
Definition no_normal (font_styles : FontStyles) : Prop :=
  forall it, In it (style_items font_styles) -> normal (snd it) = 0.

(** The sum of a list of integers. *)
Definition zsum (l : list Z) : Z := fold_right Z.add 0 l.

(** The characters counted as bold, and as normal, over all fonts and
    sizes. *)
Definition bold_total (font_styles : FontStyles) : Z :=
  zsum (map (fun it => bold (snd it)) (style_items font_styles)).

Definition normal_total (font_styles : FontStyles) : Z :=
  zsum (map (fun it => normal (snd it)) (style_items font_styles)).

(** The sum of the weights [w] of the values of a dictionary, and the
    weight found under a key. *)
Definition weight {K V} (w : V -> Z) (d : list (K * V)) : Z :=
  zsum (map (fun kv => w (snd kv)) d).

Definition weight_at {K V} (keq : K -> K -> bool) (w : V -> Z) (k : K)
    (d : list (K * V)) : Z :=
  match dict_get keq k d with Some v => w v | None => 0 end.

(** The sum of [f] over all counters. *)
Definition total (f : Counts -> Z) (font_styles : FontStyles) : Z :=
  zsum (map (fun it => f (snd it)) (style_items font_styles)).

(** [font_styles[font_name][size]], both counts 0 where there is no
    such entry. *)
Definition count_at (font_name : pystr) (size : float)
    (font_styles : FontStyles) : Counts :=
  counts_of size (sizes_of font_name font_styles).

(** [n] more characters under ["bold"] or under ["normal"]. *)
Definition add_chars (is_bold : bool) (n : Z) (c : Counts) : Counts :=
  if is_bold then {| bold := bold c + n; normal := normal c |}
  else {| bold := bold c; normal := normal c + n |}.

(** The number of a heading level. *)
Definition level_number (l : Level) : Z :=
  match l with H1 => 1 | H2 => 2 | H3 => 3 end.

(** Every character of [s] is in the class [p]. *)
Definition all_chars (p : PyStr.char -> bool) (s : pystr) : Prop :=
  forall c, In c s -> p c = true.

Definition has_substring (needle t : pystr) : Prop :=
  exists pre post, t = pre ++ needle ++ post.

(** The first character of [s] is in the class [p]. *)
Definition head_is (p : PyStr.char -> bool) (s : pystr) : bool :=
  match s with [] => false | c :: _ => p c end.

(** The text of a span counts for the pair ([font_name], [size]). *)
Definition counts_for (font_name : pystr) (size : float)
    (item : Z * Span.t) : bool :=
  (PyStr.eqb font_name (Span.font (snd item))
   && (size =? PyFloat.round1 (Span.size (snd item)))%float)%bool.

(** The characters of the spans of [l] that count for the pair. *)
Definition chars_for (font_name : pystr) (size : float)
    (l : list (Z * Span.t)) : Z :=
  zsum (map (fun it => PyStr.len (Span.text (snd it)))
          (filter (counts_for font_name size) l)).

Section Vocabulary.
Context {U : PyStr.Unicode}.

(** The font name has the bold marker, whatever the case of its letters. *)
Definition bold_named (span : Span.t) : bool :=
  PyStr.contains (lit "bold") (PyStr.lower (Span.font span)).

(** The rejection rules in the words of the specification, on a trimmed
    text [t]. *)
Definition purely_numeric (t : pystr) : Prop :=
  t <> [] /\ all_chars PyStr.isnumeric_char t.

(** White space up to the end of the text, or up to its last newline. *)
Definition blank_to_end (ws : pystr) : Prop :=
  all_chars PyStr.isspace ws \/
  exists w, ws = w ++ [PyStr.newline] /\ all_chars PyStr.isspace w.

Definition number_plus_period (t : pystr) : Prop :=
  exists ds ws, ds <> [] /\ all_chars PyStr.isdecimal ds /\
                blank_to_end ws /\ t = ds ++ [PyStr.period] ++ ws.

Definition roman_plus_period (t : pystr) : Prop :=
  exists rs, rs <> [] /\ all_chars PyStr.is_roman_char rs /\
             (t = rs ++ [PyStr.period] \/
              t = rs ++ [PyStr.period; PyStr.newline]).

Definition begins_with_ci (p t : pystr) : Prop :=
  exists rest, PyStr.lower t = p ++ rest.

Definition rejected (t : pystr) : Prop :=
  t = [] \/ (List.length t < 5)%nat \/ purely_numeric t \/
  number_plus_period t \/ roman_plus_period t \/
  has_substring (lit "G.MAMATHA, CET, CBIT") t \/
  begins_with_ci (lit "figure") t \/ begins_with_ci (lit "table") t \/
  begins_with_ci (lit "formula") t \/ begins_with_ci (lit "example") t \/
  begins_with_ci (lit "g.mamatha") t \/ begins_with_ci (lit "source:") t.

(** The deduplication key on the emitted dictionaries. *)
Definition entry_key (e : Entry.t) : Level * pystr * Z :=
  (Entry.level e, PyStr.lower (Entry.text e), Entry.page e).

(** The native entries that are kept, and what each becomes. *)
Definition toc_kept (item : Z * pystr * Z) : bool :=
  toc_keep (PyStr.strip (snd (fst item))).

Definition toc_mapped (item : Z * pystr * Z) : Entry.t :=
  {| Entry.level := heading_level (fst (fst item));
     Entry.text := PyStr.strip (snd (fst item));
     Entry.page := snd item; Entry.bbox := None |}.

(** The artifact one input file gives, under the name it is written to. *)
Definition output_of (pdf_file : PdfFile) : pystr * Artifact :=
  (stem pdf_file ++ lit ".json",
   extract_outline_from_pdf (stem pdf_file) (opened pdf_file)).

End Vocabulary.

(** ** Sample documents *)

Definition box (top : float) : BBox :=
  {| x0 := 72; y0 := top; x1 := 300; y1 := (top + 12)%float |}.

Definition mk_span (text font : string) (size : float) (flags : Z)
    (top : float) : Span.t :=
  {| Span.text := lit text; Span.font := lit font; Span.size := size;
     Span.flags := flags; Span.bbox := box top |}.

(** A page with one text block of one line. *)
Definition one_line_page (l : list Span.t) : Page :=
  {| blocks := [{| type := 0; lines := [{| spans := l |}] |}] |}.

(** A span in a regular face whose style flags have the bold bit (16). *)
Definition helvetica_span : Span.t :=
  mk_span "Overview" "Helvetica" 18 16 50.

Definition doc_helvetica : Document :=
  {| metadata_title := None; get_toc := [];
     pages := [one_line_page [helvetica_span]] |}.

(** Every font of this document is named bold: body text at 10pt, one
    title-case span at 10.5pt, a heading at 18pt and a caption at 20pt. *)
Definition doc_all_bold : Document :=
  {| metadata_title := None; get_toc := [];
     pages :=
       [one_line_page
          [mk_span "Figure 3: results" "Arial-Bold" 20 20 30;
           mk_span "Overview" "Arial-Bold" 18 20 50;
           mk_span "some body text here" "Arial-Bold" 10 20 100;
           mk_span "more body text here" "Arial-Bold" 10 20 120;
           mk_span "Hello World" "Arial-Bold" 10.5 20 140]] |}.

(** Statistics in which regular text dominates: 12pt is the most frequent
    size, the 10pt pair has the largest normal count. *)
Definition stats_sample : Stats :=
  {| font_styles :=
       [(lit "Times-Roman", [(12%float, {| bold := 0; normal := 500 |});
                             (18%float, {| bold := 40; normal := 0 |})]);
        (lit "Arial", [(10%float, {| bold := 0; normal := 900 |})])];
     all_sizes := [12; 12; 18; 12; 10; 10]%float |}.

(** A page of hairline text: every size rounds to 0.0. *)
Definition doc_hairline : Document :=
  {| metadata_title := None; get_toc := [];
     pages :=
       [one_line_page
          [mk_span "Watermark Text" "Tiny-Bold" 0.04 20 10;
           mk_span "MORE WATERMARK" "Tiny-Bold" 0.03 20 20]] |}.

(** Statistics whose largest normal count belongs to a size of 0.0. *)
Definition stats_zero_override : Stats :=
  {| font_styles :=
       [(lit "Arial", [(0%float, {| bold := 0; normal := 900 |});
                       (12%float, {| bold := 0; normal := 500 |})])];
     all_sizes := [0; 12; 12]%float |}.

(** A document with a metadata title and neither outline nor page. *)
Definition doc_titled_empty : Document :=
  {| metadata_title := Some (lit "Annual Report"); get_toc := [];
     pages := [] |}.

(** The native outline of Scenario A. *)
Definition doc_scenario_a (meta : option pystr) : Document :=
  {| metadata_title := meta;
     get_toc := [(1, lit "Introduction", 1); (3, lit "Details", 2)];
     pages := [] |}.

(** Candidates met out of reading order, one heading twice on the first
    page in different cases. *)
Definition mk_cand (level : Level) (text : string) (page : Z) (top : float)
  : Candidate.t :=
  {| Candidate.level := level; Candidate.text := lit text;
     Candidate.page := page; Candidate.bbox := box top |}.

Definition cands_sample : list Candidate.t :=
  [mk_cand H1 "Second Part" 1 300; mk_cand H1 "First Part" 1 100;
   mk_cand H1 "FIRST PART" 1 400; mk_cand H1 "First Part" 2 50].
(** * Proofs *)

(** ** The order of floats *)

Module FloatOrder.

Lemma cont_eq_spec (m n : positive) :
  CompareSpec (m = n) (Pos.lt m n) (Pos.lt n m)
    (PosDef.Pos.compare_cont Eq m n).
Proof. exact (Pos.compare_spec m n). Qed.

Ltac cmp_cases :=
  repeat match goal with
  | |- context [(?a ?= ?b)%Z] => destruct (Z.compare_spec a b)
  | H : context [(?a ?= ?b)%Z] |- _ => destruct (Z.compare_spec a b)
  | |- context [PosDef.Pos.compare_cont Eq ?a ?b] =>
      destruct (cont_eq_spec a b)
  | H : context [PosDef.Pos.compare_cont Eq ?a ?b] |- _ =>
      destruct (cont_eq_spec a b)
  end.

Ltac sf_crush :=
  intros;
  repeat match goal with
  | x : spec_float |- _ => destruct x
  | b : bool |- _ => destruct b
  end;
  cbn in *; try congruence; try reflexivity;
  cmp_cases; cbn in *; subst; try congruence; try reflexivity; try lia.

Lemma SFleb_trans a b c :
  SFleb a b = true -> SFleb b c = true -> SFleb a c = true.
Proof. unfold SFleb. sf_crush. Qed.

Lemma SFltb_leb a b : SFltb a b = true -> SFleb a b = true.
Proof. unfold SFltb, SFleb. sf_crush. Qed.

Lemma SFeqb_leb a b : SFeqb a b = true -> SFleb b a = true.
Proof. unfold SFeqb, SFleb. sf_crush. Qed.

Lemma SFleb_total a b :
  SFeqb a a = true -> SFeqb b b = true ->
  SFltb a b = false -> SFleb b a = true.
Proof. unfold SFeqb, SFltb, SFleb. sf_crush. Qed.

Lemma SFltb_not_eqb a b c :
  SFltb a b = true -> SFeqb b c = true -> SFeqb a c = false.
Proof. unfold SFltb, SFeqb. sf_crush. Qed.

Lemma SFeqb_sym a b : SFeqb a b = SFeqb b a.
Proof. unfold SFeqb. sf_crush. Qed.

Lemma SFeqb_trans a b c :
  SFeqb a b = true -> SFeqb b c = true -> SFeqb a c = true.
Proof. unfold SFeqb. sf_crush. Qed.

Local Open Scope float_scope.

Lemma not_nan_eqb x : not_nan x <-> (x =? x) = true.
Proof.
  unfold not_nan, is_nan. destruct (x =? x); simpl; split; congruence.
Qed.

Lemma eqb_refl x : not_nan x -> (x =? x) = true.
Proof. apply not_nan_eqb. Qed.

Lemma eqb_sym x y : (x =? y) = (y =? x).
Proof. rewrite !FloatAxioms.eqb_spec. apply SFeqb_sym. Qed.

Lemma eqb_trans x y z :
  (x =? y) = true -> (y =? z) = true -> (x =? z) = true.
Proof. rewrite !FloatAxioms.eqb_spec. apply SFeqb_trans. Qed.

Lemma ltb_not_eqb x y z :
  (x <? y) = true -> (y =? z) = true -> (x =? z) = false.
Proof. rewrite ltb_spec, !FloatAxioms.eqb_spec. apply SFltb_not_eqb. Qed.

Lemma eqb_not_nan_l x y : (x =? y) = true -> not_nan x.
Proof.
  intros H. apply not_nan_eqb. apply (eqb_trans x y x); trivial.
  now rewrite eqb_sym.
Qed.

Lemma leb_trans x y z :
  (x <=? y) = true -> (y <=? z) = true -> (x <=? z) = true.
Proof. rewrite !leb_spec. apply SFleb_trans. Qed.

Lemma ltb_leb x y : (x <? y) = true -> (x <=? y) = true.
Proof. rewrite ltb_spec, leb_spec. apply SFltb_leb. Qed.

Lemma eqb_leb x y : (x =? y) = true -> (y <=? x) = true.
Proof. rewrite FloatAxioms.eqb_spec, leb_spec. apply SFeqb_leb. Qed.

Lemma leb_total x y :
  not_nan x -> not_nan y -> (x <? y) = false -> (y <=? x) = true.
Proof.
  rewrite !not_nan_eqb, !FloatAxioms.eqb_spec, ltb_spec, leb_spec.
  apply SFleb_total.
Qed.

End FloatOrder.

(** ** Loops *)

Lemma for_each_app {A S} (body : S -> A -> result S) l1 l2 s :
  for_each body (l1 ++ l2) s = (s' <- for_each body l1 s ;; for_each body l2 s').
Proof.
  revert s. induction l1 as [|x l1 IH]; intros s; simpl; [reflexivity|].
  destruct (body s x); simpl; [apply IH | reflexivity].
Qed.

(** A loop whose body can raise nothing but [e] raises [e] as soon as one
    item makes the body raise. *)
Lemma for_each_raises {A S} (body : S -> A -> result S) (e : exn) l :
  (forall s x, In x l -> body s x = Raise e \/ exists s', body s x = Ok s') ->
  (exists x, In x l /\ forall s, body s x = Raise e) ->
  forall s, for_each body l s = Raise e.
Proof.
  induction l as [|y l IH]; intros Hbody [x [Hin Hx]] s.
  - destruct Hin.
  - simpl. destruct (Hbody s y (or_introl eq_refl)) as [E | [s' E]];
      rewrite E; simpl; [reflexivity|].
    destruct Hin as [-> | Hin]; [rewrite Hx in E; discriminate|].
    apply IH; [|exists x; auto].
    intros s0 x0 H0. apply Hbody. now right.
Qed.

(** An invariant of the loop state holds when the loop ends normally. *)
Lemma for_each_invariant {A S} (body : S -> A -> result S) (P : S -> Prop) l :
  (forall s x s', In x l -> P s -> body s x = Ok s' -> P s') ->
  forall s s', P s -> for_each body l s = Ok s' -> P s'.
Proof.
  induction l as [|y l IH]; intros Hstep s s' Hs; simpl.
  - intros [= <-]. exact Hs.
  - destruct (body s y) as [s1|] eqn:E; simpl; [|discriminate].
    apply IH.
    + intros s0 x s0' Hx. apply Hstep. now right.
    + apply (Hstep s y s1); auto. now left.
Qed.

(** ** The scan order *)

Lemma in_numbered_spans ps : forall start z span,
  In (z, span) (numbered_spans start ps) <->
  exists n p, z = start + Z.of_nat n /\ nth_error ps n = Some p /\
              In span (page_spans p).
Proof.
  induction ps as [|p ps IH]; intros start z span; simpl.
  - split; [intros []|]. intros (n & p & _ & H & _). destruct n; discriminate.
  - rewrite in_app_iff, in_map_iff, IH. split.
    + intros [(s & [= <- <-] & Hs) | (n & q & -> & Hn & Hq)].
      * exists 0%nat, p. repeat split; auto. lia.
      * exists (S n), q. repeat split; auto. lia.
    + intros (n & q & -> & Hn & Hq). destruct n as [|n]; simpl in Hn.
      * injection Hn as <-. left. exists span. split; auto. f_equal. lia.
      * right. exists n, q. repeat split; auto. lia.
Qed.

Lemma in_page_spans p span :
  In span (page_spans p) <->
  exists b l, In b (blocks p) /\ type b = 0 /\ In l (lines b) /\
              In span (spans l).
Proof.
  unfold page_spans, block_spans. rewrite in_flat_map. split.
  - intros (b & Hb & H). destruct (Z.eqb_spec (type b) 0); [|destruct H].
    apply in_flat_map in H as (l & Hl & Hs). exists b, l. auto.
  - intros (b & l & Hb & Ht & Hl & Hs). exists b. split; auto.
    rewrite Ht. simpl. apply in_flat_map. exists l. auto.
Qed.

Lemma in_doc_spans doc z span :
  In (z, span) (doc_spans doc) <->
  exists n, z = Z.of_nat n /\ text_span doc n span.
Proof.
  unfold doc_spans, text_span. rewrite in_numbered_spans. split.
  - intros (n & p & -> & Hn & Hp). apply in_page_spans in Hp.
    destruct Hp as (b & l & H). exists n. split; [lia|]. exists p, b, l. tauto.
  - intros (n & -> & p & b & l & Hn & H). exists n, p.
    split; [lia|]. split; auto. apply in_page_spans. exists b, l. tauto.
Qed.

Lemma doc_spans_page_range doc z span :
  In (z, span) (doc_spans doc) -> 0 <= z < page_count doc.
Proof.
  intros H. apply in_doc_spans in H as (n & -> & p & _ & _ & Hn & _).
  unfold page_count.
  assert (n < List.length (pages doc))%nat
    by (apply nth_error_Some; congruence).
  lia.
Qed.

Lemma for_each_total {A S} (body : S -> A -> result S) l :
  (forall s x, In x l -> exists s', body s x = Ok s') ->
  forall s, exists s', for_each body l s = Ok s'.
Proof.
  induction l as [|x l IH]; intros H s; simpl; [eauto|].
  destruct (H s x (or_introl eq_refl)) as [s1 E]. rewrite E. simpl.
  apply IH. intros s0 y Hy. apply H. now right.
Qed.

(** ** The boldness test and the two scans *)

Section Scans.
Context {U : PyStr.Unicode}.

(** What line 68 (and line 130) evaluates to: [True] on a font named
    bold, a [TypeError] on every other font. *)
Lemma is_bold_eq span :
  is_bold span = if bold_named span then Ok true else Raise int_not_iterable.
Proof.
  unfold is_bold, bold_named, str_in_int.
  destruct (PyStr.contains _ _); reflexivity.
Qed.

Lemma is_bold_ok span b : is_bold span = Ok b -> b = true /\ bold_named span = true.
Proof.
  rewrite is_bold_eq. destruct (bold_named span); [|discriminate].
  intros [= <-]. auto.
Qed.

Lemma stats_step_cases st item :
  stats_step st item = Raise int_not_iterable \/
  exists st', stats_step st item = Ok st'.
Proof.
  unfold stats_step. rewrite is_bold_eq.
  destruct (bold_named (snd item)); simpl; eauto.
Qed.

Lemma collect_stats_raises doc n span :
  text_span doc n span -> bold_named span = false ->
  collect_stats doc = Raise int_not_iterable.
Proof.
  intros Hspan Hfont. unfold collect_stats. apply for_each_raises.
  - intros s x _. apply stats_step_cases.
  - exists (Z.of_nat n, span). split.
    + apply in_doc_spans. eauto.
    + intros s. unfold stats_step. rewrite is_bold_eq. simpl. now rewrite Hfont.
Qed.

Lemma collect_stats_total doc :
  (forall it, In it (doc_spans doc) -> bold_named (snd it) = true) ->
  exists st, collect_stats doc = Ok st.
Proof.
  intros Hall. unfold collect_stats. apply for_each_total.
  intros s x Hx. unfold stats_step. rewrite is_bold_eq, (Hall x Hx).
  simpl. eauto.
Qed.

Lemma collect_stats_all_bold doc st :
  collect_stats doc = Ok st ->
  forall it, In it (doc_spans doc) -> bold_named (snd it) = true.
Proof.
  intros H it Hin. destruct (bold_named (snd it)) eqn:Hb; [reflexivity|].
  destruct it as [z span]. apply in_doc_spans in Hin as (n & _ & Hn).
  rewrite (collect_stats_raises doc n span Hn Hb) in H. discriminate.
Qed.

Lemma some_span_not_bold doc :
  (exists n span, text_span doc n span /\ bold_named span = false) \/
  (forall it, In it (doc_spans doc) -> bold_named (snd it) = true).
Proof.
  destruct (existsb (fun it => negb (bold_named (snd it))) (doc_spans doc))
    eqn:E.
  - left. apply existsb_exists in E as ([z span] & Hin & Hb).
    apply in_doc_spans in Hin as (n & _ & Hn). exists n, span.
    split; [exact Hn|]. now apply negb_true_iff in Hb.
  - right. intros it Hin. destruct (bold_named (snd it)) eqn:Hb; [reflexivity|].
    rewrite <- not_true_iff_false in E. exfalso. apply E.
    apply existsb_exists. exists it. split; [exact Hin|]. now rewrite Hb.
Qed.

(** The second scan stops at its first span: the lookup of line 127
    raises before anything else of the loop body runs. *)
Lemma collect_candidates_eq doc body :
  collect_candidates doc body =
  if is_nil (doc_spans doc) then Ok [] else Raise key_error_text.
Proof.
  unfold collect_candidates.
  destruct (doc_spans doc) as [|[z span] l]; reflexivity.
Qed.

Lemma collect_stats_no_span doc :
  doc_spans doc = [] -> collect_stats doc = Ok empty_stats.
Proof. intros H. unfold collect_stats. now rewrite H. Qed.

(** The heuristic path: the first scan, then either the return of line
    96 or the [KeyError] of the second scan. *)
Lemma heuristic_outline_eq stem title doc :
  heuristic_outline stem title doc =
  (st <- collect_stats doc ;;
   if (estimate_body st =? 0)%float
   then Ok {| title := title; outline := [] |}
   else Raise key_error_text).
Proof.
  unfold heuristic_outline.
  destruct (collect_stats doc) as [st|e] eqn:Est; simpl; [|reflexivity].
  destruct (estimate_body st =? 0)%float eqn:E0; [reflexivity|].
  rewrite collect_candidates_eq.
  destruct (doc_spans doc) as [|it l] eqn:Es; simpl; [|reflexivity].
  rewrite (collect_stats_no_span doc Es) in Est. injection Est as <-.
  vm_compute in E0. discriminate.
Qed.

Lemma try_body_heuristic stem doc :
  get_toc doc = [] ->
  try_body stem (Ok doc) = heuristic_outline stem (initial_title stem doc) doc.
Proof. intros H. unfold try_body. simpl. now rewrite H. Qed.

Lemma try_body_toc stem doc :
  get_toc doc <> [] ->
  try_body stem (Ok doc) =
  Ok {| title := initial_title stem doc; outline := toc_outline (get_toc doc) |}.
Proof.
  intros H. unfold try_body. simpl.
  destruct (get_toc doc); [congruence | reflexivity].
Qed.

Lemma extract_of_raise stem opened e :
  try_body stem opened = Raise e ->
  extract_outline_from_pdf stem opened = handle stem e.
Proof. unfold extract_outline_from_pdf. now intros ->. Qed.

Lemma extract_of_ok stem opened data :
  try_body stem opened = Ok data ->
  extract_outline_from_pdf stem opened = data.
Proof. unfold extract_outline_from_pdf. now intros ->. Qed.

(** What the [try] block does on a document without native outline. *)
Lemma heuristic_outcome stem doc :
  get_toc doc = [] ->
  ((exists n span, text_span doc n span /\ bold_named span = false) /\
   try_body stem (Ok doc) = Raise int_not_iterable) \/
  (exists st,
     collect_stats doc = Ok st /\
     (forall n span, text_span doc n span -> bold_named span = true) /\
     try_body stem (Ok doc) =
       if (estimate_body st =? 0)%float
       then Ok {| title := initial_title stem doc; outline := [] |}
       else Raise key_error_text).
Proof.
  intros Htoc. rewrite (try_body_heuristic stem doc Htoc), heuristic_outline_eq.
  destruct (some_span_not_bold doc) as [(n & span & Hs & Hb) | Hall].
  - left. split; [eauto|]. now rewrite (collect_stats_raises doc n span Hs Hb).
  - right. destruct (collect_stats_total doc Hall) as [st Est].
    exists st. rewrite Est. split; [reflexivity|]. split; [|reflexivity].
    intros n span Hn. apply (Hall (Z.of_nat n, span)).
    apply in_doc_spans. eauto.
Qed.

(** Every outline of the heuristic path is empty or the one error entry
    of a scan that raised. *)
Lemma heuristic_outline_shape stem doc :
  get_toc doc = [] ->
  outline (extract_outline_from_pdf stem (Ok doc)) = [] \/
  (doc_spans doc <> [] /\
   (outline (extract_outline_from_pdf stem (Ok doc)) =
      [error_entry (lit "Error: " ++ exn_msg int_not_iterable)] \/
    outline (extract_outline_from_pdf stem (Ok doc)) =
      [error_entry (lit "Error: " ++ exn_msg key_error_text)])).
Proof.
  intros Htoc.
  destruct (heuristic_outcome stem doc Htoc)
    as [[(n & span & Hs & _) Ht] | (st & Est & _ & Ht)].
  - right. split.
    + intros E. assert (Hin : In (Z.of_nat n, span) (doc_spans doc))
        by (apply in_doc_spans; eauto).
      rewrite E in Hin. destruct Hin.
    + left. now rewrite (extract_of_raise _ _ _ Ht).
  - destruct (estimate_body st =? 0)%float eqn:E0.
    + left. now rewrite (extract_of_ok _ _ _ Ht).
    + right. split.
      * intros E. rewrite (collect_stats_no_span doc E) in Est.
        injection Est as <-. vm_compute in E0. discriminate.
      * right. now rewrite (extract_of_raise _ _ _ Ht).
Qed.

(** C1. The boldness test of both scans is the one expression [is_bold];
    it is no three-way disjunction: it yields [True] on a font named
    bold and raises a [TypeError] on every other span, whatever the style
    flags and the hyphen-delimited parts of the name are. A span in
    Helvetica with the bold bit set is not judged bold: the test raises. *)
Theorem bold_test_raises_without_bold_name :
  (forall span,
     is_bold span =
     if PyStr.contains (lit "bold") (PyStr.lower (Span.font span))
     then Ok true else Raise int_not_iterable) /\
  (forall span, is_bold span <> Ok false) /\
  Z.testbit (Span.flags helvetica_span) 4 = true /\
  is_bold (U := ascii_db) helvetica_span = Raise int_not_iterable /\
  is_bold (U := ascii_db) (mk_span "Overview" "Arial-B" 18 0 50) =
    Raise int_not_iterable.
Proof.
  split; [exact is_bold_eq|]. split.
  - intros span H. apply is_bold_ok in H. destruct H; discriminate.
  - repeat split; reflexivity.
Qed.

(** C2. On the heuristic path (empty table of contents), a text span
    whose lowercased font name has no "bold" makes the boldness test
    evaluate ["b" in span["flags"]], a [TypeError]; the exception leaves
    the [try] block and [extract_outline_from_pdf] returns the error
    artifact: title "Processing Error for <stem>" and one H1 entry. *)
Theorem non_bold_span_yields_error_artifact stem doc n span :
  get_toc doc = [] ->
  text_span doc n span ->
  PyStr.contains (lit "bold") (PyStr.lower (Span.font span)) = false ->
  is_bold span = str_in_int (lit "b") (Span.flags span) /\
  is_bold span =
    Raise (Exn TypeError (lit "argument of type 'int' is not iterable")) /\
  try_body stem (Ok doc) =
    Raise (Exn TypeError (lit "argument of type 'int' is not iterable")) /\
  extract_outline_from_pdf stem (Ok doc) =
    {| title := lit "Processing Error for " ++ stem;
       outline :=
         [{| Entry.level := H1;
             Entry.text :=
               lit "Error: argument of type 'int' is not iterable";
             Entry.page := 1; Entry.bbox := None |}] |}.
Proof.
  intros Htoc Hspan Hfont.
  assert (Hb : is_bold span = Raise int_not_iterable).
  { rewrite is_bold_eq. unfold bold_named. now rewrite Hfont. }
  assert (Ht : try_body stem (Ok doc) = Raise int_not_iterable).
  { unfold try_body. simpl. rewrite Htoc. simpl. unfold heuristic_outline.
    now rewrite (collect_stats_raises doc n span Hspan Hfont). }
  repeat split; auto.
  unfold extract_outline_from_pdf. now rewrite Ht.
Qed.

End Scans.

Lemma non_bold_span_yields_error_artifact_witness :
  extract_outline_from_pdf (U := ascii_db) (lit "report") (Ok doc_helvetica) =
    {| title := lit "Processing Error for report";
       outline :=
         [{| Entry.level := H1;
             Entry.text :=
               lit "Error: argument of type 'int' is not iterable";
             Entry.page := 1; Entry.bbox := None |}] |}.
Proof.
  apply (non_bold_span_yields_error_artifact (U := ascii_db) (lit "report")
           doc_helvetica 0 helvetica_span).
  - reflexivity.
  - exists (one_line_page [helvetica_span]),
      {| type := 0; lines := [{| spans := [helvetica_span] |}] |},
      {| spans := [helvetica_span] |}.
    simpl. auto 10.
  - reflexivity.
Defined.

(** ** The title before the outline is built *)

Section NativeOutline.
Context {U : PyStr.Unicode}.

Lemma is_empty_true (s : pystr) : PyStr.is_empty s = true <-> s = [].
Proof. destruct s; simpl; split; congruence. Qed.

(** The metadata title, trimmed, when that is not empty; the file name's
    stem otherwise. *)
Lemma initial_title_eq stem doc :
  initial_title stem doc =
  match metadata_title doc with
  | Some t => if PyStr.is_empty (PyStr.strip t) then stem else PyStr.strip t
  | None => stem
  end.
Proof.
  unfold initial_title. destruct (metadata_title doc) as [t|]; [|reflexivity].
  destruct t; reflexivity.
Qed.

(** ** The table-of-contents path *)

Lemma existsb_false_iff {A} (p : A -> bool) l :
  existsb p l = false <-> forall c, In c l -> p c = false.
Proof.
  induction l as [|a l IH]; simpl.
  - split; [intros _ c []|reflexivity].
  - rewrite orb_false_iff, IH. split.
    + intros [Ha Hs] c [<-|Hc]; auto.
    + intros H. split; [apply H; now left|]. intros c Hc. apply H. now right.
Qed.

Lemma toc_keep_false t :
  toc_keep t = false <->
  t = [] \/ forall c, In c t -> PyStr.isalpha c = false.
Proof.
  unfold toc_keep. rewrite andb_false_iff, negb_false_iff, is_empty_true.
  now rewrite existsb_false_iff.
Qed.

Lemma toc_outline_eq toc :
  toc_outline toc = map toc_mapped (filter toc_kept toc).
Proof.
  unfold toc_outline. induction toc as [|[[level text] page] toc IH].
  - reflexivity.
  - cbn [flat_map filter]. rewrite IH.
    change (toc_kept (level, text, page)) with (toc_keep (PyStr.strip text)).
    unfold toc_entry. destruct (toc_keep (PyStr.strip text)); reflexivity.
Qed.

Lemma filter_split_length {A} (p : A -> bool) l :
  (List.length (filter p l) + List.length (filter (fun x => negb (p x)) l)
   = List.length l)%nat.
Proof.
  induction l as [|x l IH]; simpl; [reflexivity|].
  destruct (p x); simpl; lia.
Qed.

(** C5. With a non-empty native outline the result is the native entries
    in their order, each kept entry with its depth clamped (1 to H1, 2 to
    H2, 3 and more to H3), its text trimmed and its page; an entry is
    dropped exactly when its trimmed text is empty or has no alphabetic
    character ([str.isalpha] on each of its characters), so the count is
    the native count minus the dropped ones; the title is the one from
    the metadata or the file name; Scenario A gives the two entries of
    the specification. *)
Theorem native_outline_is_mapped_in_order stem doc :
  get_toc doc <> [] ->
  let data := extract_outline_from_pdf stem (Ok doc) in
  outline data = map toc_mapped (filter toc_kept (get_toc doc)) /\
  (forall depth text page,
     Entry.level (toc_mapped (depth, text, page)) =
       (if depth =? 1 then H1 else if depth =? 2 then H2
        else if 3 <=? depth then H3 else H1) /\
     Entry.text (toc_mapped (depth, text, page)) = PyStr.strip text /\
     Entry.page (toc_mapped (depth, text, page)) = page /\
     Entry.keys (toc_mapped (depth, text, page)) = ["level"; "text"; "page"]) /\
  (forall depth text page,
     toc_kept (depth, text, page) = false <->
     PyStr.strip text = [] \/
     forall c, In c (PyStr.strip text) -> PyStr.isalpha c = false) /\
  Z.of_nat (List.length (outline data)) =
    Z.of_nat (List.length (get_toc doc)) -
    Z.of_nat (List.length (filter (fun it => negb (toc_kept it)) (get_toc doc))) /\
  title data =
    match metadata_title doc with
    | Some t => if PyStr.is_empty (PyStr.strip t) then stem else PyStr.strip t
    | None => stem
    end /\
  (forall meta,
     outline (extract_outline_from_pdf (U := ascii_db) stem
                (Ok (doc_scenario_a meta))) =
     [{| Entry.level := H1; Entry.text := lit "Introduction"; Entry.page := 1;
         Entry.bbox := None |};
      {| Entry.level := H3; Entry.text := lit "Details"; Entry.page := 2;
         Entry.bbox := None |}]).
Proof.
  intros Htoc data. subst data. unfold extract_outline_from_pdf at 1 2 3.
  rewrite (try_body_toc stem doc Htoc). simpl.
  rewrite toc_outline_eq.
  split; [reflexivity|]. split.
  { intros depth text page. unfold toc_mapped, heading_level. simpl.
    repeat split.
    destruct (Z.eqb_spec depth 1) as [->|]; [reflexivity|].
    destruct (Z.eqb_spec depth 2); reflexivity. }
  split.
  { intros depth text page. unfold toc_kept. simpl. apply toc_keep_false. }
  split.
  { rewrite length_map.
    pose proof (filter_split_length toc_kept (get_toc doc)). lia. }
  split; [apply initial_title_eq|].
  intros meta. reflexivity.
Qed.

End NativeOutline.

Lemma native_outline_is_mapped_in_order_witness :
  let data := extract_outline_from_pdf (U := ascii_db) (lit "paper")
                (Ok (doc_scenario_a None)) in
  outline data =
    [{| Entry.level := H1; Entry.text := lit "Introduction"; Entry.page := 1;
        Entry.bbox := None |};
     {| Entry.level := H3; Entry.text := lit "Details"; Entry.page := 2;
        Entry.bbox := None |}] /\
  title data = lit "paper".
Proof.
  assert (H : get_toc (doc_scenario_a None) <> []) by (simpl; discriminate).
  pose proof (native_outline_is_mapped_in_order (U := ascii_db) (lit "paper")
                (doc_scenario_a None) H)
    as (Ho & _ & _ & _ & Ht & _).
  split; [exact Ho | exact Ht].
Defined.

(** ** Faults *)

Section Faults.
Context {U : PyStr.Unicode}.

Lemma process_from writable pdf_files : forall written,
  fold_left (process_one writable) pdf_files written =
  written ++ process_pdfs writable pdf_files.
Proof.
  unfold process_pdfs.
  induction pdf_files as [|f l IH]; intros written; simpl.
  - now rewrite app_nil_r.
  - rewrite IH, (IH (process_one writable [] f)). unfold process_one.
    destruct (writable _); simpl; [|reflexivity]. now rewrite <- app_assoc.
Qed.

Lemma process_pdfs_app writable l1 l2 :
  process_pdfs writable (l1 ++ l2) =
  process_pdfs writable l1 ++ process_pdfs writable l2.
Proof.
  unfold process_pdfs at 1. rewrite fold_left_app.
  fold (process_pdfs writable l1). apply process_from.
Qed.

Lemma process_pdfs_cons writable f l :
  process_pdfs writable (f :: l) =
  process_one writable [] f ++ process_pdfs writable l.
Proof. unfold process_pdfs at 1. simpl. apply process_from. Qed.

(** The exceptions of a document that opened: the [TypeError] of the
    boldness test in the first scan, the [KeyError] of the text lookup
    in the second. *)
Lemma try_body_raises stem doc e :
  try_body stem (Ok doc) = Raise e ->
  get_toc doc = [] /\ (e = int_not_iterable \/ e = key_error_text).
Proof.
  intros H. destruct (get_toc doc) as [|it toc] eqn:Htoc.
  - split; [reflexivity|].
    destruct (heuristic_outcome stem doc Htoc) as [[_ Ht] | (st & _ & _ & Ht)];
      rewrite Ht in H.
    + left. congruence.
    + destruct (estimate_body st =? 0)%float; [discriminate|].
      right. congruence.
  - rewrite (try_body_toc stem doc) in H; [discriminate|]. now rewrite Htoc.
Qed.

(** C9. An exception that leaves the [try] block of one document (raised
    by opening it or by a scan) becomes the error artifact: the title is
    "Processing Error for " followed by the stem and the outline is one
    H1 entry on page 1 with the message (the text of the exception after
    "Error: ", or the fixed PyMuPDF message for an [ImportError]). On a
    document that opened, the exception is the [TypeError] of the
    boldness test or the [KeyError] of the second scan's text lookup.
    The batch goes on: the artifact of the failing file is written like
    any other, and what is written for the files before and after it is
    what is written for them without it. *)
Theorem exception_becomes_error_artifact stem opened e :
  try_body stem opened = Raise e ->
  (exists message,
     extract_outline_from_pdf stem opened = error_artifact stem message /\
     message =
       match exn_cls e with
       | ImportError => lit "PyMuPDF not found. Please install it."
       | _ => lit "Error: " ++ exn_msg e
       end) /\
  (forall d, opened = Ok d ->
     get_toc d = [] /\ (e = int_not_iterable \/ e = key_error_text)) /\
  (opened = Raise e \/ exists d, opened = Ok d) /\
  (forall writable before after,
     process_pdfs writable
       (before ++ {| stem := stem; opened := opened |} :: after) =
     process_pdfs writable before ++
     (if writable (stem ++ lit ".json")
      then [(stem ++ lit ".json", handle stem e)] else []) ++
     process_pdfs writable after).
Proof.
  intros H. split; [|split; [|split]].
  - rewrite (extract_of_raise _ _ _ H). unfold handle, error_artifact, error_entry.
    destruct (exn_cls e); eexists; split; reflexivity.
  - intros d ->. exact (try_body_raises stem d e H).
  - destruct opened as [d|e']; [right; eauto|]. left.
    simpl in H. congruence.
  - intros writable before after.
    rewrite process_pdfs_app, process_pdfs_cons. f_equal. f_equal.
    unfold process_one. simpl.
    rewrite (extract_of_raise _ _ _ H). reflexivity.
Qed.

(** ** Documents without text *)

Lemma doc_spans_nil doc :
  (forall n span, ~ text_span doc n span) -> doc_spans doc = [].
Proof.
  intros H. destruct (doc_spans doc) as [|[z span] l] eqn:E; [reflexivity|].
  assert (Hin : In (z, span) (doc_spans doc)) by (rewrite E; now left).
  apply in_doc_spans in Hin as (n & _ & Hn). now apply H in Hn.
Qed.

Lemma heuristic_outline_no_span stem title doc :
  doc_spans doc = [] ->
  heuristic_outline stem title doc = Ok {| title := title; outline := [] |}.
Proof.
  intros H. unfold heuristic_outline, collect_stats. rewrite H. reflexivity.
Qed.

(** C10, amended. A document with no native outline and no text span
    yields, as a normal result of the [try] block (no exception, no
    threshold: the body size is 0.0 and the function returns at line 96),
    an empty outline under the title the document has at that point: the
    trimmed metadata title when there is a non-empty one, the stem of the
    file name otherwise. *)
Theorem empty_document_yields_empty_outline stem doc :
  get_toc doc = [] ->
  (forall n span, ~ text_span doc n span) ->
  collect_stats doc = Ok empty_stats /\
  (estimate_body empty_stats =? 0)%float = true /\
  try_body stem (Ok doc) =
    Ok {| title := initial_title stem doc; outline := [] |} /\
  extract_outline_from_pdf stem (Ok doc) =
    {| title :=
         match metadata_title doc with
         | Some t => if PyStr.is_empty (PyStr.strip t) then stem
                     else PyStr.strip t
         | None => stem
         end;
       outline := [] |}.
Proof.
  intros Htoc Hno. pose proof (doc_spans_nil doc Hno) as Hs.
  assert (Ht : try_body stem (Ok doc) =
               Ok {| title := initial_title stem doc; outline := [] |}).
  { unfold try_body. simpl. rewrite Htoc. simpl.
    now apply heuristic_outline_no_span. }
  split; [unfold collect_stats; now rewrite Hs|].
  split; [reflexivity|]. split; [exact Ht|].
  unfold extract_outline_from_pdf. rewrite Ht. now rewrite initial_title_eq.
Qed.

End Faults.

Lemma exception_becomes_error_artifact_witness :
  extract_outline_from_pdf (U := ascii_db) (lit "x") (Ok doc_helvetica) =
    error_artifact (lit "x")
      (lit "Error: argument of type 'int' is not iterable") /\
  process_pdfs (U := ascii_db) (fun _ => true)
    [ {| stem := lit "a"; opened := Ok (doc_scenario_a None) |};
      {| stem := lit "x"; opened := Ok doc_helvetica |};
      {| stem := lit "b";
         opened := Raise (Exn OtherException
                            (lit "cannot open broken document")) |} ] =
  process_pdfs (U := ascii_db) (fun _ => true)
    [ {| stem := lit "a"; opened := Ok (doc_scenario_a None) |} ] ++
  [(lit "x.json",
    error_artifact (lit "x")
      (lit "Error: argument of type 'int' is not iterable"))] ++
  process_pdfs (U := ascii_db) (fun _ => true)
    [ {| stem := lit "b";
         opened := Raise (Exn OtherException
                            (lit "cannot open broken document")) |} ].
Proof.
  assert (H : try_body (U := ascii_db) (lit "x") (Ok doc_helvetica)
              = Raise int_not_iterable)
    by reflexivity.
  pose proof (exception_becomes_error_artifact (U := ascii_db) _ _ _ H)
    as ((message & Hm & ->) & _ & _ & Hb).
  split; [exact Hm|].
  exact (Hb (fun _ => true)
            [ {| stem := lit "a"; opened := Ok (doc_scenario_a None) |} ]
            [ {| stem := lit "b";
                 opened := Raise (Exn OtherException
                                    (lit "cannot open broken document")) |} ]).
Defined.

(** C10, as stated, fails on a document that has a metadata title: the
    title of the artifact is that title, not the one derived from the
    file name. *)
Lemma empty_document_title_counterexample :
  get_toc doc_titled_empty = [] /\
  doc_spans doc_titled_empty = [] /\
  extract_outline_from_pdf (U := ascii_db) (lit "scan") (Ok doc_titled_empty) =
    {| title := lit "Annual Report"; outline := [] |} /\
  extract_outline_from_pdf (U := ascii_db) (lit "scan") (Ok doc_titled_empty) <>
    {| title := lit "scan"; outline := [] |}.
Proof. repeat split; try reflexivity. discriminate. Qed.

Lemma empty_document_yields_empty_outline_witness :
  extract_outline_from_pdf (U := ascii_db) (lit "scan")
    (Ok {| metadata_title := None; get_toc := [];
           pages := [{| blocks := [{| type := 1; lines := [] |}] |}] |}) =
  {| title := lit "scan"; outline := [] |}.
Proof.
  apply (empty_document_yields_empty_outline (U := ascii_db) (lit "scan")
           {| metadata_title := None; get_toc := [];
              pages := [{| blocks := [{| type := 1; lines := [] |}] |}] |}).
  - reflexivity.
  - intros n span (p & b & l & Hn & Hb & Ht & Hl & Hs).
    destruct n as [|[|n]]; simpl in Hn; try discriminate.
    injection Hn as <-. simpl in Hb. destruct Hb as [<-|[]]. discriminate.
Defined.

(** ** Rule 4 and the shape of the entries *)

Section Classification.
Context {U : PyStr.Unicode}.


(** The dictionaries lines 170-176 append are the candidates themselves,
    with their ["bbox"]. *)
Lemma sequence_keeps_bbox stem title cands :
  Forall (fun e => Entry.keys e = ["level"; "text"; "page"; "bbox"])
    (outline (sequence stem title cands)).
Proof.
  apply Forall_forall. intros e H. apply in_map_iff in H as (c & <- & _).
  reflexivity.
Qed.



(** What [extract_outline_from_pdf] returns, path by path: the error
    artifact, the native outline, or the empty outline of line 96. *)
Lemma extract_cases stem opened :
  (exists e, try_body stem opened = Raise e /\
             extract_outline_from_pdf stem opened = handle stem e) \/
  (exists doc, opened = Ok doc /\ get_toc doc <> [] /\
     extract_outline_from_pdf stem opened =
       {| title := initial_title stem doc;
          outline := toc_outline (get_toc doc) |}) \/
  (exists doc, opened = Ok doc /\ get_toc doc = [] /\
     extract_outline_from_pdf stem opened =
       {| title := initial_title stem doc; outline := [] |}).
Proof.
  destruct (try_body stem opened) as [data|e] eqn:Ht.
  - right. destruct opened as [doc|e]; [|discriminate].
    assert (Hd : get_toc doc = [] \/ get_toc doc <> [])
      by (destruct (get_toc doc); [now left | right; discriminate]).
    rewrite (extract_of_ok _ _ _ Ht). destruct Hd as [Htoc | Htoc].
    + right. exists doc. split; [reflexivity|]. split; [exact Htoc|].
      destruct (heuristic_outcome stem doc Htoc)
        as [[_ Hr] | (st & _ & _ & Hr)]; rewrite Hr in Ht; [discriminate|].
      destruct (estimate_body st =? 0)%float; congruence.
    + left. exists doc. split; [reflexivity|]. split; [exact Htoc|].
      rewrite (try_body_toc stem doc Htoc) in Ht. congruence.
  - left. exists e. split; [reflexivity|]. now apply extract_of_raise.
Qed.



End Classification.


(** ** String predicates against their descriptions *)

Lemma startswith_iff p : forall s,
  PyStr.startswith p s = true <-> exists rest, s = p ++ rest.
Proof.
  induction p as [|a p IH]; intros s; simpl.
  - split; [intros _; now exists s|reflexivity].
  - destruct s as [|b s].
    + split; [discriminate|]. intros [rest H]. discriminate.
    + rewrite andb_true_iff, N.eqb_eq, IH. split.
      * intros [-> [rest ->]]. now exists rest.
      * intros [rest [= -> ->]]. split; [reflexivity|now exists rest].
Qed.

Lemma contains_iff needle s :
  PyStr.contains needle s = true <-> has_substring needle s.
Proof.
  unfold has_substring. induction s as [|b s IH].
  - simpl. rewrite orb_false_r, startswith_iff. split.
    + intros [rest H]. exists [], rest. exact H.
    + intros (pre & post & H). destruct pre; simpl in H; [eauto|discriminate].
  - cbn [PyStr.contains]. rewrite orb_true_iff, startswith_iff, IH. split.
    + intros [[rest H] | (pre & post & ->)].
      * exists [], rest. exact H.
      * now exists (b :: pre), post.
    + intros (pre & post & H). destruct pre as [|a pre]; simpl in H.
      * left. eauto.
      * injection H as -> ->. right. eauto.
Qed.

Lemma all_chars_cons p c s :
  all_chars p (c :: s) <-> p c = true /\ all_chars p s.
Proof.
  unfold all_chars. split.
  - intros H. split; [apply H; now left|]. intros x Hx. apply H. now right.
  - intros [Hc Hs] x [<-|Hx]; auto.
Qed.

Lemma all_chars_nil p : all_chars p [].
Proof. intros c []. Qed.

Lemma at_dollar_iff r :
  PyStr.at_dollar r = true <-> r = [] \/ r = [PyStr.newline].
Proof.
  destruct r as [|c [|d r]]; simpl.
  - split; auto.
  - rewrite N.eqb_eq. split.
    + intros ->. now right.
    + intros [H|[= ->]]; [discriminate|reflexivity].
  - split; [discriminate|]. intros [H|H]; discriminate.
Qed.

(** A run of characters of the class [p], a period, and a rest that
    [k] accepts. *)
Lemma class_star_period_iff p k : forall s,
  PyStr.class_star_period p k s = true <->
  exists run rest, all_chars p run /\ k rest = true /\
                   s = run ++ [PyStr.period] ++ rest.
Proof.
  induction s as [|c s IH]; simpl.
  - split; [discriminate|]. intros (run & rest & _ & _ & H).
    destruct run; discriminate.
  - rewrite orb_true_iff, !andb_true_iff, N.eqb_eq, IH. split.
    + intros [[-> Hk] | [Hp (run & rest & Hr & Hk & ->)]].
      * exists [], s. split; [apply all_chars_nil|]. auto.
      * exists (c :: run), rest. rewrite all_chars_cons. auto.
    + intros (run & rest & Hr & Hk & H).
      destruct run as [|x run]; simpl in H; injection H as -> ->.
      * left. auto.
      * right. apply all_chars_cons in Hr as [Hx Hr]. split; [exact Hx|].
        exists run, rest. auto.
Qed.

Lemma class_plus_period_iff p k s :
  PyStr.class_plus_period p k s = true <->
  exists run rest, run <> [] /\ all_chars p run /\ k rest = true /\
                   s = run ++ [PyStr.period] ++ rest.
Proof.
  unfold PyStr.class_plus_period. destruct s as [|c s].
  - split; [discriminate|]. intros (run & rest & _ & _ & _ & H).
    destruct run; discriminate.
  - rewrite andb_true_iff, class_star_period_iff. split.
    + intros [Hc (run & rest & Hr & Hk & ->)].
      exists (c :: run), rest. rewrite all_chars_cons.
      repeat split; auto. discriminate.
    + intros (run & rest & Hne & Hr & Hk & H).
      destruct run as [|x run]; [congruence|].
      simpl in H. injection H as -> ->.
      apply all_chars_cons in Hr as [Hx Hr]. split; [exact Hx|].
      exists run, rest. auto.
Qed.

Lemma match_roman_period_iff t :
  PyStr.match_roman_period t = true <->
  exists rs, rs <> [] /\ all_chars PyStr.is_roman_char rs /\
             (t = rs ++ [PyStr.period] \/
              t = rs ++ [PyStr.period; PyStr.newline]).
Proof.
  unfold PyStr.match_roman_period. rewrite class_plus_period_iff. split.
  - intros (run & rest & Hne & Hr & Hk & ->). exists run.
    apply at_dollar_iff in Hk as [-> | ->]; auto.
  - intros (rs & Hne & Hr & [-> | ->]).
    + exists rs, []. auto.
    + exists rs, [PyStr.newline]. auto.
Qed.

Section Filter.
Context {U : PyStr.Unicode}.

Lemma isnumeric_iff t : PyStr.isnumeric t = true <-> purely_numeric t.
Proof.
  unfold PyStr.isnumeric, purely_numeric, all_chars.
  rewrite andb_true_iff, negb_true_iff, forallb_forall.
  destruct t; simpl; intuition congruence.
Qed.

Lemma spaces_dollar_iff ws :
  PyStr.spaces_dollar ws = true <-> blank_to_end ws.
Proof.
  unfold blank_to_end. induction ws as [|c r IH].
  - simpl. split; [intros _; left; apply all_chars_nil | reflexivity].
  - cbn [PyStr.spaces_dollar].
    rewrite orb_true_iff, andb_true_iff, at_dollar_iff, IH. split.
    + intros [[H | H] | [Hc [Hr | (w & -> & Hw)]]].
      * discriminate.
      * injection H as -> ->. right. exists []. split; [reflexivity|].
        apply all_chars_nil.
      * left. now apply all_chars_cons.
      * right. exists (c :: w). split; [reflexivity|]. now apply all_chars_cons.
    + intros [H | (w & H & Hw)].
      * apply all_chars_cons in H as [Hc Hr]. right. auto.
      * destruct w as [|x w]; simpl in H; injection H as -> ->.
        -- left. now right.
        -- apply all_chars_cons in Hw as [Hx Hw]. right. split; [exact Hx|].
           right. exists w. auto.
Qed.

Lemma match_number_period_iff t :
  PyStr.match_number_period t = true <-> number_plus_period t.
Proof.
  unfold PyStr.match_number_period, number_plus_period.
  rewrite class_plus_period_iff. split.
  - intros (ds & ws & Hne & Hd & Hk & ->). exists ds, ws.
    apply spaces_dollar_iff in Hk. auto.
  - intros (ds & ws & Hne & Hd & Hk & ->). exists ds, ws.
    apply spaces_dollar_iff in Hk. auto.
Qed.

Lemma is_noise_iff t : is_noise t = true <-> rejected t.
Proof.
  unfold is_noise, rejected, NOISE_PREFIXES, NOISE_LITERAL, begins_with_ci,
    roman_plus_period.
  cbn [existsb map].
  rewrite orb_false_r, !orb_true_iff, is_empty_true, Z.ltb_lt, isnumeric_iff,
    match_number_period_iff, match_roman_period_iff, contains_iff,
    !startswith_iff.
  unfold PyStr.len. rewrite <- (Nat2Z.inj_lt (List.length t) 5).
  tauto.
Qed.

(** What the rest of the loop body does with the text of a span. *)
Lemma classify_span_cases body th cands page_num span raw_text cands' :
  classify_span body th cands page_num span raw_text = Ok cands' ->
  cands' = cands \/
  exists level,
    is_noise (PyStr.strip raw_text) = false /\
    classify body th (PyFloat.round1 (Span.size span)) true
      (PyStr.strip raw_text) = Some level /\
    cands' = cands ++ [{| Candidate.level := level;
                          Candidate.text := PyStr.strip raw_text;
                          Candidate.page := page_num + 1;
                          Candidate.bbox := Span.bbox span |}].
Proof.
  unfold classify_span. rewrite is_bold_eq.
  destruct (bold_named span); simpl; [|discriminate].
  destruct (is_noise _) eqn:Hn; [intros [= <-]; now left|].
  destruct (classify _ _ _ _ _) as [level|] eqn:Hc; intros [= <-]; eauto.
Qed.

(** C7. The condition under which a span is skipped (lines 133-137) is
    the disjunction of the rejection rules on its trimmed text: empty,
    shorter than 5 characters, purely numeric, digits and a period,
    Roman numerals and a period, containing the institutional literal,
    or beginning (case ignored) with figure, table, formula, example,
    g.mamatha or source:. With a rejected text the rest of the loop
    body adds no candidate, whatever the size and the boldness, and a
    candidate it adds has a text that is not rejected. "Figure 3:
    results" at 20pt bold is rejected, and no outline of a document
    without native outline has an entry with that text (in a run the
    lookup of line 127 raises before the filter is reached, and the
    outline is empty or the one error entry). *)
Theorem rejected_spans_are_never_emitted :
  (forall t, is_noise t = true <-> rejected t) /\
  (forall body th cands page_num span raw_text,
     rejected (PyStr.strip raw_text) ->
     classify_span body th cands page_num span raw_text =
       (b <- is_bold span ;; Ok cands)) /\
  (forall body th cands page_num span raw_text cands',
     classify_span body th cands page_num span raw_text = Ok cands' ->
     cands' = cands \/
     exists c, cands' = cands ++ [c] /\
               Candidate.text c = PyStr.strip raw_text /\
               ~ rejected (Candidate.text c)) /\
  rejected (U := ascii_db) (lit "Figure 3: results") /\
  (forall body th cands page_num size flags top,
     classify_span (U := ascii_db) body th cands page_num
       (mk_span "Figure 3: results" "Arial-Bold" size flags top)
       (lit "Figure 3: results") = Ok cands) /\
  (forall stem doc,
     get_toc doc = [] ->
     Forall (fun e => Entry.text e <> lit "Figure 3: results")
       (outline (extract_outline_from_pdf stem (Ok doc)))).
Proof.
  split; [exact is_noise_iff|]. split.
  { intros body th cands page_num span raw_text Hr. apply is_noise_iff in Hr.
    unfold classify_span. now rewrite Hr. }
  split.
  { intros body th cands page_num span raw_text cands' H.
    apply classify_span_cases in H as [-> | (level & Hn & _ & ->)];
      [now left|].
    right. eexists. split; [reflexivity|]. split; [reflexivity|]. simpl.
    rewrite <- is_noise_iff. congruence. }
  split.
  { do 6 right. left. exists (lit " 3: results"). reflexivity. }
  split.
  { intros. reflexivity. }
  intros stem doc Htoc.
  destruct (heuristic_outline_shape stem doc Htoc) as [-> | [_ [-> | ->]]];
    repeat constructor; discriminate.
Qed.

End Filter.

(** ** The sequencer *)

Lemma in_insert_by_key c x l :
  In c (insert_by_key x l) <-> c = x \/ In c l.
Proof.
  induction l as [|y l IH]; simpl; [intuition|].
  destruct (key_lt _ _); simpl; rewrite ?IH; intuition.
Qed.

Lemma in_sort_candidates c l : In c (sort_candidates l) <-> In c l.
Proof.
  induction l as [|x l IH]; simpl; [reflexivity|].
  rewrite in_insert_by_key, IH. intuition.
Qed.

Lemma key_lt_cand_le a b :
  key_lt (sort_key a) (sort_key b) = true -> cand_le a b.
Proof.
  unfold key_lt, sort_key, cand_le. simpl.
  destruct (Z.eqb_spec (Candidate.page a) (Candidate.page b)) as [E|E]; simpl.
  - destruct (y0 (Candidate.bbox a) =? y0 (Candidate.bbox b))%float; simpl;
      [discriminate|].
    intros H. split; [lia|]. intros _. now apply FloatOrder.ltb_leb.
  - rewrite Z.ltb_lt. intros H. split; [lia|]. intros E'. contradiction.
Qed.

Lemma not_key_lt_cand_le a b :
  cand_not_nan a -> cand_not_nan b ->
  key_lt (sort_key b) (sort_key a) = false -> cand_le a b.
Proof.
  unfold key_lt, sort_key, cand_le, cand_not_nan. simpl. intros Ha Hb.
  destruct (Z.eqb_spec (Candidate.page b) (Candidate.page a)) as [E|E]; simpl.
  - destruct (y0 (Candidate.bbox b) =? y0 (Candidate.bbox a))%float eqn:Ey;
      simpl; intros H; (split; [lia|]); intros _.
    + now apply FloatOrder.eqb_leb.
    + now apply FloatOrder.leb_total.
  - rewrite Z.ltb_ge. intros H. split; [lia|]. intros E'. congruence.
Qed.

Lemma cand_le_trans a b c : cand_le a b -> cand_le b c -> cand_le a c.
Proof.
  unfold cand_le. intros [H1 H2] [H3 H4]. split; [lia|]. intros E.
  apply (FloatOrder.leb_trans _ (y0 (Candidate.bbox b))); [apply H2|apply H4]; lia.
Qed.

Lemma insert_by_key_sorted x l :
  cand_not_nan x -> Forall cand_not_nan l ->
  StronglySorted cand_le l -> StronglySorted cand_le (insert_by_key x l).
Proof.
  intros Hx. induction l as [|y l IH]; intros Hl Hs; simpl.
  - repeat constructor.
  - inversion Hl as [|? ? Hy Hl']; subst.
    inversion Hs as [|? ? Hs' Hy']; subst.
    destruct (key_lt (sort_key y) (sort_key x)) eqn:E.
    + constructor; [now apply IH|].
      apply Forall_forall. intros z Hz. apply in_insert_by_key in Hz as [->|Hz].
      * now apply key_lt_cand_le.
      * rewrite Forall_forall in Hy'. now apply Hy'.
    + assert (Hxy : cand_le x y) by now apply not_key_lt_cand_le.
      constructor; [exact Hs|]. constructor; [exact Hxy|].
      apply Forall_forall. intros z Hz. rewrite Forall_forall in Hy'.
      apply (cand_le_trans x y z); auto.
Qed.

Lemma Forall_insert_by_key (P : Candidate.t -> Prop) x l :
  P x -> Forall P l -> Forall P (insert_by_key x l).
Proof.
  intros Hx Hl. apply Forall_forall. intros z Hz.
  apply in_insert_by_key in Hz as [->|Hz]; [exact Hx|].
  rewrite Forall_forall in Hl. now apply Hl.
Qed.

Lemma Forall_sort_candidates (P : Candidate.t -> Prop) l :
  Forall P l -> Forall P (sort_candidates l).
Proof.
  induction 1 as [|x l Hx Hl IH]; simpl; [constructor|].
  now apply Forall_insert_by_key.
Qed.

Lemma sort_candidates_sorted l :
  Forall cand_not_nan l -> StronglySorted cand_le (sort_candidates l).
Proof.
  induction 1 as [|x l Hx Hl IH]; simpl; [constructor|].
  apply insert_by_key_sorted; auto. now apply Forall_sort_candidates.
Qed.

Lemma insert_by_key_perm x l : Permutation (insert_by_key x l) (x :: l).
Proof.
  induction l as [|y l IH]; simpl; [reflexivity|].
  destruct (key_lt _ _); [|reflexivity].
  rewrite IH. apply perm_swap.
Qed.

Lemma sort_candidates_perm l : Permutation (sort_candidates l) l.
Proof.
  induction l as [|x l IH]; simpl; [reflexivity|].
  rewrite insert_by_key_perm. now constructor.
Qed.

Lemma key_lt_not_key_eqb a b k :
  key_lt a b = true -> key_eqb b k = true -> key_eqb a k = false.
Proof.
  unfold key_lt, key_eqb. destruct a as [pa ya], b as [pb yb], k as [pk yk].
  simpl. rewrite andb_true_iff, Z.eqb_eq. intros H [-> Hy].
  destruct (Z.eqb_spec pa pk) as [E|E]; simpl in *; [|reflexivity].
  destruct (ya =? yb)%float; simpl in H; [discriminate|].
  exact (FloatOrder.ltb_not_eqb _ _ _ H Hy).
Qed.

(** Stability: the candidates of one key keep their relative order. *)
Lemma insert_by_key_filter k x l :
  filter (fun c => key_eqb (sort_key c) k) (insert_by_key x l) =
  filter (fun c => key_eqb (sort_key c) k) (x :: l).
Proof.
  induction l as [|y l IH]; [reflexivity|].
  cbn [insert_by_key]. destruct (key_lt (sort_key y) (sort_key x)) eqn:E;
    [|reflexivity].
  cbn [filter] in *. rewrite IH.
  destruct (key_eqb (sort_key x) k) eqn:Ex; [|reflexivity].
  now rewrite (key_lt_not_key_eqb _ _ _ E Ex).
Qed.

Lemma sort_candidates_stable k l :
  filter (fun c => key_eqb (sort_key c) k) (sort_candidates l) =
  filter (fun c => key_eqb (sort_key c) k) l.
Proof.
  induction l as [|x l IH]; [reflexivity|].
  cbn [sort_candidates]. rewrite insert_by_key_filter. cbn [filter].
  now rewrite IH.
Qed.

Lemma SFleb_not_ltb a b : SFleb a b = true -> SFltb b a = false.
Proof. unfold SFleb, SFltb. FloatOrder.sf_crush. Qed.

Lemma leb_not_ltb x y : (x <=? y)%float = true -> (y <? x)%float = false.
Proof. rewrite leb_spec, ltb_spec. apply SFleb_not_ltb. Qed.

Lemma cand_le_not_key_lt a b :
  cand_le a b -> key_lt (sort_key b) (sort_key a) = false.
Proof.
  unfold cand_le, key_lt, sort_key. simpl. intros [Hp Hy].
  destruct (Z.eqb_spec (Candidate.page b) (Candidate.page a)) as [E|E]; simpl.
  - destruct (y0 (Candidate.bbox b) =? y0 (Candidate.bbox a))%float; simpl;
      [reflexivity|].
    apply leb_not_ltb, Hy. congruence.
  - apply Z.ltb_ge. exact Hp.
Qed.

(** Sorting a sorted list of candidates returns it. *)
Lemma sort_candidates_sorted_fixed l :
  StronglySorted cand_le l -> sort_candidates l = l.
Proof.
  induction 1 as [|x l Hs IH Hx]; [reflexivity|].
  cbn [sort_candidates]. rewrite IH. destruct l as [|y r]; [reflexivity|].
  cbn [insert_by_key]. inversion Hx as [|? ? Hxy _]; subst.
  now rewrite (cand_le_not_key_lt x y Hxy).
Qed.

Lemma as_entry_sorted l :
  StronglySorted cand_le l -> StronglySorted entry_le (map as_entry l).
Proof.
  induction 1 as [|x l Hs IH Hx]; simpl; constructor; [exact IH|].
  apply Forall_forall. intros e He. apply in_map_iff in He as (c & <- & Hc).
  rewrite Forall_forall in Hx. destruct (Hx c Hc) as [H1 H2].
  split; [exact H1|]. simpl. intros E ba bb [= <-] [= <-]. now apply H2.
Qed.

(** *** Deduplication *)

Lemma level_eqb_eq a b : level_eqb a b = true <-> a = b.
Proof. destruct a, b; simpl; split; congruence. Qed.

Lemma pystr_eqb_eq a : forall b, PyStr.eqb a b = true <-> a = b.
Proof.
  induction a as [|x a IH]; intros [|y b]; simpl;
    try (split; [discriminate|discriminate]); [split; reflexivity|].
  rewrite andb_true_iff, N.eqb_eq, IH. split.
  - intros [-> ->]. reflexivity.
  - intros [= -> ->]. auto.
Qed.

Lemma pystr_eqb_refl a : PyStr.eqb a a = true.
Proof. now apply pystr_eqb_eq. Qed.

Lemma ukey_eqb_eq a b : ukey_eqb a b = true <-> a = b.
Proof.
  destruct a as [[l1 t1] p1], b as [[l2 t2] p2]. simpl.
  rewrite !andb_true_iff, level_eqb_eq, pystr_eqb_eq, Z.eqb_eq.
  split; [intros [[-> ->] ->]; reflexivity | intros [= -> -> ->]; auto].
Qed.

Lemma seen_iff k seen : existsb (ukey_eqb k) seen = true <-> In k seen.
Proof.
  rewrite existsb_exists. split.
  - intros (x & Hx & E). apply ukey_eqb_eq in E. now subst.
  - intros H. exists k. split; [exact H|]. now apply ukey_eqb_eq.
Qed.

Section Sequencer.
Context {U : PyStr.Unicode}.

Lemma in_dedup c l : forall seen, In c (dedup seen l) -> In c l.
Proof.
  induction l as [|x l IH]; intros seen; simpl; [auto|].
  destruct (existsb _ seen).
  - intros H. right. eauto.
  - intros [<-|H]; [now left|right; eauto].
Qed.

Lemma dedup_not_seen l : forall seen c,
  In c (dedup seen l) -> ~ In (unique_key c) seen.
Proof.
  induction l as [|x l IH]; intros seen c; simpl; [intros []|].
  destruct (existsb _ seen) eqn:E.
  - apply IH.
  - intros [<-|H].
    + rewrite <- seen_iff. congruence.
    + intros Hin. apply (IH _ _ H). now right.
Qed.

Lemma dedup_NoDup l : forall seen, NoDup (map unique_key (dedup seen l)).
Proof.
  induction l as [|x l IH]; intros seen; simpl; [constructor|].
  destruct (existsb _ seen); [apply IH|].
  simpl. constructor; [|apply IH].
  intros H. apply in_map_iff in H as (c & Hc & Hin).
  apply dedup_not_seen in Hin. apply Hin. rewrite Hc. now left.
Qed.

(** The first candidate of each key is kept. *)
Lemma dedup_keeps_first pre c post : forall seen,
  ~ In (unique_key c) seen ->
  (forall x, In x pre -> unique_key x <> unique_key c) ->
  In c (dedup seen (pre ++ c :: post)).
Proof.
  induction pre as [|y pre IH]; intros seen Hseen Hpre; simpl.
  - destruct (existsb _ seen) eqn:E; [|now left].
    apply seen_iff in E. contradiction.
  - destruct (existsb _ seen).
    + apply IH; auto. intros x Hx. apply Hpre. now right.
    + right. apply IH.
      * intros [E|H]; [|contradiction]. apply (Hpre y); auto. now left.
      * intros x Hx. apply Hpre. now right.
Qed.

Lemma dedup_sorted (R : Candidate.t -> Candidate.t -> Prop) l :
  StronglySorted R l -> forall seen, StronglySorted R (dedup seen l).
Proof.
  induction 1 as [|x l Hs IH Hx]; intros seen; simpl; [constructor|].
  destruct (existsb _ seen); [apply IH|].
  constructor; [apply IH|].
  apply Forall_forall. intros z Hz. apply in_dedup in Hz.
  rewrite Forall_forall in Hx. now apply Hx.
Qed.

Lemma entry_key_as_entry l :
  map entry_key (map as_entry l) = map unique_key l.
Proof. rewrite map_map. reflexivity. Qed.

(** Deduplicating a list of candidates of distinct, unseen keys returns
    it. *)
Lemma dedup_distinct_fixed l : forall seen,
  NoDup (map unique_key l) ->
  (forall c, In c l -> ~ In (unique_key c) seen) ->
  dedup seen l = l.
Proof.
  induction l as [|x l IH]; intros seen Hnd Hseen; [reflexivity|].
  cbn [dedup]. inversion Hnd as [|? ? Hx Hnd']; subst.
  destruct (existsb (ukey_eqb (unique_key x)) seen) eqn:E.
  - apply seen_iff in E. exfalso. apply (Hseen x); [now left | exact E].
  - f_equal. apply IH; [exact Hnd'|].
    intros c Hc [Hk|Hk].
    + apply Hx. rewrite Hk. now apply in_map.
    + apply (Hseen c); [now right | exact Hk].
Qed.

(** A document with a text span has a page. *)
Lemma spans_need_page doc : doc_spans doc <> [] -> 1 <= page_count doc.
Proof.
  destruct (doc_spans doc) as [|[z span] l] eqn:E; [congruence|]. intros _.
  assert (Hin : In (z, span) (doc_spans doc)) by (rewrite E; now left).
  apply doc_spans_page_range in Hin. lia.
Qed.

(** What lines 166-176 make of a list of candidates. *)
Lemma sequence_spec stem title cands :
  Forall cand_not_nan cands ->
  outline (sequence stem title cands) =
    map as_entry (dedup [] (sort_candidates cands)) /\
  Permutation (sort_candidates cands) cands /\
  (forall k,
     filter (fun c => key_eqb (sort_key c) k) (sort_candidates cands) =
     filter (fun c => key_eqb (sort_key c) k) cands) /\
  StronglySorted cand_le (sort_candidates cands) /\
  StronglySorted entry_le (outline (sequence stem title cands)) /\
  NoDup (map entry_key (outline (sequence stem title cands))) /\
  (forall lo hi,
     Forall (fun c => lo <= Candidate.page c <= hi) cands ->
     Forall (fun e => lo <= Entry.page e <= hi)
       (outline (sequence stem title cands))) /\
  (forall pre c post,
     sort_candidates cands = pre ++ c :: post ->
     (forall x, In x pre -> unique_key x <> unique_key c) ->
     In (as_entry c) (outline (sequence stem title cands))).
Proof.
  intros Hnn. pose proof (sort_candidates_sorted cands Hnn) as Hsorted.
  unfold sequence. cbn [outline].
  split; [reflexivity|]. split; [apply sort_candidates_perm|].
  split; [intros k; apply sort_candidates_stable|].
  split; [exact Hsorted|].
  split; [apply as_entry_sorted, dedup_sorted, Hsorted|].
  split; [rewrite entry_key_as_entry; apply dedup_NoDup|].
  split.
  - intros lo hi Hp. apply Forall_forall. intros e He.
    apply in_map_iff in He as (c & <- & Hin).
    apply in_dedup in Hin. rewrite in_sort_candidates in Hin.
    rewrite Forall_forall in Hp. exact (Hp c Hin).
  - intros pre c post Hsplit Hpre. apply in_map. rewrite Hsplit.
    apply dedup_keeps_first; auto.
Qed.

(** C8. The outline of a document without native outline is empty or
    the one error entry of a scan that raised; so it is non-decreasing
    in page and, on one page, in vertical position; every page is
    between 1 and [page_count]; no two entries have the same (level,
    lowercased text, page). Lines 166-176 make of any list of
    candidates the list stably sorted by (page, vertical position) and
    then deduplicated, the first candidate of each key in that order
    being the one kept, and the pages stay in the range they were in.
    The vertical positions are numbers (not NaN). *)
Theorem heuristic_outline_sorted_and_deduplicated stem doc :
  get_toc doc = [] ->
  let data := extract_outline_from_pdf stem (Ok doc) in
  (outline data = [] \/
   exists message, outline data = [error_entry message]) /\
  StronglySorted entry_le (outline data) /\
  Forall (fun e => 1 <= Entry.page e <= page_count doc) (outline data) /\
  NoDup (map entry_key (outline data)) /\
  (forall title cands,
     Forall cand_not_nan cands ->
     outline (sequence stem title cands) =
       map as_entry (dedup [] (sort_candidates cands)) /\
     Permutation (sort_candidates cands) cands /\
     (forall k,
        filter (fun c => key_eqb (sort_key c) k) (sort_candidates cands) =
        filter (fun c => key_eqb (sort_key c) k) cands) /\
     StronglySorted cand_le (sort_candidates cands) /\
     StronglySorted entry_le (outline (sequence stem title cands)) /\
     NoDup (map entry_key (outline (sequence stem title cands))) /\
     (forall lo hi,
        Forall (fun c => lo <= Candidate.page c <= hi) cands ->
        Forall (fun e => lo <= Entry.page e <= hi)
          (outline (sequence stem title cands))) /\
     (forall pre c post,
        sort_candidates cands = pre ++ c :: post ->
        (forall x, In x pre -> unique_key x <> unique_key c) ->
        In (as_entry c) (outline (sequence stem title cands)))).
Proof.
  intros Htoc data. subst data.
  split; [|split; [|split; [|split]]].
  - destruct (heuristic_outline_shape stem doc Htoc) as [H | [_ [H | H]]];
      eauto.
  - destruct (heuristic_outline_shape stem doc Htoc) as [-> | [_ [-> | ->]]];
      repeat constructor.
  - destruct (heuristic_outline_shape stem doc Htoc) as [-> | [Hs [-> | ->]]];
      [constructor | |];
      apply spans_need_page in Hs; repeat constructor; simpl; lia.
  - destruct (heuristic_outline_shape stem doc Htoc) as [-> | [_ [-> | ->]]];
      repeat constructor; intros [].
  - intros title cands. apply sequence_spec.
Qed.

(** X12. The sequencer is idempotent: the candidates it keeps (sorted by
    page and position, one per key) are already in its order and free
    of duplicates, so that sorting them again, deduplicating them again,
    or doing both returns them unchanged. The vertical positions are
    numbers (not NaN). *)
Theorem sequencing_is_idempotent cands :
  Forall cand_not_nan cands ->
  let kept := dedup [] (sort_candidates cands) in
  sort_candidates kept = kept /\
  dedup [] kept = kept /\
  dedup [] (sort_candidates kept) = kept /\
  (forall stem title,
     outline (sequence stem title kept) = outline (sequence stem title cands)).
Proof.
  intros Hnn kept.
  assert (Hs : sort_candidates kept = kept).
  { apply sort_candidates_sorted_fixed, dedup_sorted.
    now apply sort_candidates_sorted. }
  assert (Hd : dedup [] kept = kept).
  { apply dedup_distinct_fixed; [apply dedup_NoDup | intros c _ []]. }
  split; [exact Hs|]. split; [exact Hd|].
  split; [now rewrite Hs|].
  intros stem title. unfold sequence. cbn [outline]. fold kept.
  now rewrite Hs, Hd.
Qed.

End Sequencer.

Lemma heuristic_outline_sorted_and_deduplicated_witness :
  outline (extract_outline_from_pdf (U := ascii_db) (lit "notes")
             (Ok doc_all_bold)) =
    [{| Entry.level := H1; Entry.text := lit "Error: 'text'";
        Entry.page := 1; Entry.bbox := None |}] /\
  Forall (fun e => 1 <= Entry.page e <= page_count doc_all_bold)
    (outline (extract_outline_from_pdf (U := ascii_db) (lit "notes")
                (Ok doc_all_bold))) /\
  map (fun e => (Entry.text e, Entry.page e))
    (outline (sequence (U := ascii_db) (lit "notes") (lit "notes")
                cands_sample)) =
    [(lit "First Part", 1); (lit "Second Part", 1); (lit "First Part", 2)] /\
  StronglySorted entry_le
    (outline (sequence (U := ascii_db) (lit "notes") (lit "notes")
                cands_sample)) /\
  NoDup (map (entry_key (U := ascii_db))
    (outline (sequence (U := ascii_db) (lit "notes") (lit "notes")
                cands_sample))).
Proof.
  assert (Hnn : Forall cand_not_nan cands_sample) by (repeat constructor).
  destruct (heuristic_outline_sorted_and_deduplicated (U := ascii_db)
              (lit "notes") doc_all_bold eq_refl)
    as (_ & _ & Hp & _ & Hseq).
  destruct (Hseq (lit "notes") cands_sample Hnn)
    as (_ & _ & _ & _ & Hs & Hd & _).
  split; [vm_compute; reflexivity|]. split; [exact Hp|].
  split; [vm_compute; reflexivity|]. split; [exact Hs | exact Hd].
Defined.

Lemma sequencing_is_idempotent_witness :
  let cands :=
    [ {| Candidate.level := H1; Candidate.text := lit "Second Part";
         Candidate.page := 1; Candidate.bbox := box 300 |};
      {| Candidate.level := H1; Candidate.text := lit "First Part";
         Candidate.page := 1; Candidate.bbox := box 100 |};
      {| Candidate.level := H1; Candidate.text := lit "FIRST PART";
         Candidate.page := 1; Candidate.bbox := box 400 |} ] in
  map Candidate.text (dedup (U := ascii_db) [] (sort_candidates cands)) =
    [lit "First Part"; lit "Second Part"] /\
  sort_candidates (dedup (U := ascii_db) [] (sort_candidates cands)) =
    dedup (U := ascii_db) [] (sort_candidates cands) /\
  dedup (U := ascii_db) [] (dedup (U := ascii_db) [] (sort_candidates cands)) =
    dedup (U := ascii_db) [] (sort_candidates cands).
Proof.
  cbv zeta.
  destruct (sequencing_is_idempotent (U := ascii_db)
    [ {| Candidate.level := H1; Candidate.text := lit "Second Part";
         Candidate.page := 1; Candidate.bbox := box 300 |};
      {| Candidate.level := H1; Candidate.text := lit "First Part";
         Candidate.page := 1; Candidate.bbox := box 100 |};
      {| Candidate.level := H1; Candidate.text := lit "FIRST PART";
         Candidate.page := 1; Candidate.bbox := box 400 |} ])
    as (Hs & Hd & _).
  - repeat constructor.
  - split; [vm_compute; reflexivity|]. split; [exact Hs | exact Hd].
Defined.
(** ** The body size *)

Local Open Scope float_scope.

Lemma float_eqb_congr k x y : (k =? x) = true -> (k =? y) = (x =? y).
Proof.
  intros H. destruct (k =? y) eqn:E1, (x =? y) eqn:E2; auto.
  - rewrite <- E2. symmetry. apply (FloatOrder.eqb_trans x k y); auto.
    now rewrite FloatOrder.eqb_sym.
  - rewrite <- E1. apply (FloatOrder.eqb_trans k x y); auto.
Qed.

Lemma occurrences_cons k x l :
  occurrences k (x :: l) = ((if (k =? x)%float then 1 else 0) + occurrences k l)%Z.
Proof.
  unfold occurrences. cbn [filter]. unfold float_eqb at 1.
  destruct (k =? x); cbn [List.length]; lia.
Qed.

Lemma occurrences_equiv k x l :
  (k =? x) = true -> occurrences k l = occurrences x l.
Proof.
  intros H. induction l as [|y l IH]; [reflexivity|].
  rewrite !occurrences_cons, IH. now rewrite (float_eqb_congr k x y H).
Qed.

Lemma occurrences_nonneg k l : (0 <= occurrences k l)%Z.
Proof. unfold occurrences. lia. Qed.

Lemma existsb_keys_false x (ks : list float) :
  existsb (float_eqb x) ks = false <-> forall k, In k ks -> (x =? k) = false.
Proof.
  induction ks as [|k ks IH]; simpl.
  - split; [intros _ k []|reflexivity].
  - rewrite orb_false_iff, IH. unfold float_eqb. split.
    + intros [H1 H2] k' [<-|H]; auto.
    + intros H. split; [apply H; now left|]. intros k' Hk. apply H. now right.
Qed.

Lemma counter_step_absent c x :
  existsb (float_eqb x) (map fst c) = false -> counter_step c x = c ++ [(x, 1%Z)].
Proof.
  unfold counter_step. induction c as [|[k n] c IH]; simpl; [reflexivity|].
  rewrite orb_false_iff. intros [H1 H2]. rewrite H1.
  specialize (IH H2). destruct (dict_get float_eqb x c); now rewrite IH.
Qed.

Lemma bump_one_id x c :
  (forall k, In k (map fst c) -> (x =? k) = false) -> map (bump_one x) c = c.
Proof.
  induction c as [|[k n] c IH]; simpl; intros H; [reflexivity|].
  unfold bump_one at 1, float_eqb. simpl. rewrite (H k (or_introl eq_refl)).
  f_equal. apply IH. intros k' Hk. apply H. now right.
Qed.

Lemma counter_step_present c x :
  distinct (map fst c) -> existsb (float_eqb x) (map fst c) = true ->
  counter_step c x = map (bump_one x) c.
Proof.
  unfold counter_step. induction c as [|[k n] c IH]; simpl; [discriminate|].
  intros Hd Hx. inversion Hd as [|? ? Hk Hd']; subst.
  unfold bump_one at 1. simpl. destruct (float_eqb x k) eqn:E.
  - f_equal. symmetry. apply bump_one_id. intros k' Hk'.
    rewrite Forall_forall in Hk. specialize (Hk k' Hk').
    unfold float_eqb in E. rewrite <- (float_eqb_congr x k k' E) in Hk.
    exact Hk.
  - simpl in Hx. f_equal. specialize (IH Hd' Hx).
    destruct (dict_get float_eqb x c); exact IH.
Qed.

Lemma map_fst_bump_one x c : map fst (map (bump_one x) c) = map fst c.
Proof.
  rewrite map_map. apply map_ext. intros [k n]. unfold bump_one. simpl.
  now destruct (float_eqb x k).
Qed.

Lemma firsts_fresh l : forall seen k,
  In k (firsts seen l) -> forall s, In s seen -> (k =? s) = false.
Proof.
  induction l as [|x l IH]; intros seen k; simpl; [intros []|].
  destruct (existsb (float_eqb x) seen) eqn:E.
  - apply IH.
  - intros [<-|H] s Hs.
    + now apply (proj1 (existsb_keys_false _ _) E).
    + apply (IH _ _ H). apply in_or_app. now left.
Qed.

Lemma firsts_fresh_last l seen x k :
  In k (firsts (seen ++ [x]) l) -> (k =? x) = false.
Proof.
  intros H. apply (firsts_fresh _ _ _ H). apply in_or_app. right. now left.
Qed.

Lemma distinct_snoc ks x :
  distinct ks -> (forall k, In k ks -> (k =? x) = false) -> distinct (ks ++ [x]).
Proof.
  induction 1 as [|k ks Hk Hd IH]; intros H; simpl.
  - repeat constructor.
  - constructor.
    + apply Forall_app. split; [exact Hk|]. constructor; [|constructor].
      apply H. now left.
    + apply IH. intros k' Hk'. apply H. now right.
Qed.

(** The counter after the values of [l] are added to a counter [c]. *)
Lemma fold_counter_step l : forall c,
  Forall not_nan l -> distinct (map fst c) ->
  fold_left counter_step l c =
  map (fun it => (fst it, (snd it + occurrences (fst it) l)%Z)) c ++
  map (fun k => (k, occurrences k l)) (firsts (map fst c) l).
Proof.
  induction l as [|x l IH]; intros c Hnn Hd.
  - simpl. rewrite app_nil_r. rewrite <- (map_id c) at 1. apply map_ext.
    intros [k n]. unfold occurrences. simpl. f_equal. lia.
  - inversion Hnn as [|? ? Hx Hl]; subst. cbn [fold_left firsts].
    destruct (existsb (float_eqb x) (map fst c)) eqn:E.
    + rewrite (counter_step_present c x Hd E), IH;
        [|exact Hl|now rewrite map_fst_bump_one].
      rewrite map_fst_bump_one, map_map. f_equal.
      * apply map_ext. intros [k n]. unfold bump_one, float_eqb. cbn [fst snd].
        rewrite occurrences_cons, (FloatOrder.eqb_sym k x).
        destruct (x =? k); cbn [fst snd]; f_equal; lia.
      * apply map_ext_in. intros k Hk. rewrite occurrences_cons.
        apply existsb_exists in E as (k0 & Hk0 & E0). unfold float_eqb in E0.
        pose proof (firsts_fresh _ _ _ Hk k0 Hk0) as Hf.
        rewrite FloatOrder.eqb_sym in E0.
        rewrite FloatOrder.eqb_sym, (float_eqb_congr k0 x k E0),
          FloatOrder.eqb_sym in Hf.
        now rewrite Hf.
    + pose proof (proj1 (existsb_keys_false _ _) E) as Hfresh.
      rewrite (counter_step_absent c x E), IH; [|exact Hl|].
      * rewrite !map_app. cbn [map fst snd]. rewrite <- app_assoc.
        cbn [app]. f_equal.
        { apply map_ext_in. intros [k n] Hin. cbn [fst snd]. rewrite occurrences_cons.
          rewrite (FloatOrder.eqb_sym k x), (Hfresh k); [f_equal; lia|].
          apply in_map_iff. now exists (k, n). }
        f_equal.
        { now rewrite occurrences_cons, (FloatOrder.eqb_refl x Hx). }
        apply map_ext_in. intros k Hk. rewrite occurrences_cons.
        now rewrite (firsts_fresh_last _ _ _ _ Hk).
      * rewrite map_app. simpl. apply distinct_snoc; [exact Hd|].
        intros k Hk. rewrite FloatOrder.eqb_sym. now apply Hfresh.
Qed.

Lemma Counter_eq l :
  Forall not_nan l ->
  Counter l = map (fun k => (k, occurrences k l)) (firsts [] l).
Proof.
  intros H. unfold Counter.
  rewrite (fold_counter_step l [] H); [reflexivity|constructor].
Qed.

Lemma max_count_split r : forall pre best mid,
  (forall y, In y pre -> (snd y < snd best)%Z) ->
  (forall y, In y mid -> (snd y <= snd best)%Z) ->
  exists pre' post',
    pre ++ best :: mid ++ r = pre' ++ max_count best r :: post' /\
    (forall y, In y pre' -> (snd y < snd (max_count best r))%Z) /\
    (forall y, In y post' -> (snd y <= snd (max_count best r))%Z).
Proof.
  induction r as [|it r IH]; intros pre best mid Hpre Hmid; simpl.
  - exists pre, mid. rewrite app_nil_r. auto.
  - destruct (Z.ltb_spec (snd best) (snd it)) as [Hlt|Hge].
    + destruct (IH (pre ++ best :: mid) it []) as (pre' & post' & E & H1 & H2).
      * intros y Hy. apply in_app_iff in Hy as [Hy | [<- | Hy]];
          [specialize (Hpre y Hy) | | specialize (Hmid y Hy)]; lia.
      * intros y [].
      * exists pre', post'. split; [|auto]. rewrite <- E, <- app_assoc.
        reflexivity.
    + destruct (IH pre best (mid ++ [it])) as (pre' & post' & E & H1 & H2).
      * exact Hpre.
      * intros y Hy. apply in_app_iff in Hy as [Hy | [<- | []]]; auto.
      * exists pre', post'. split; [|auto]. rewrite <- E, <- app_assoc.
        reflexivity.
Qed.

Lemma firsts_split l : forall seen pk d qk,
  Forall not_nan l ->
  firsts seen l = pk ++ d :: qk ->
  exists pre post,
    l = pre ++ d :: post /\
    forall x, In x pre -> exists k, In k (seen ++ pk) /\ (x =? k) = true.
Proof.
  induction l as [|x l IH]; intros seen pk d qk Hnn; simpl.
  - destruct pk; discriminate.
  - inversion Hnn as [|? ? Hx Hl]; subst.
    destruct (existsb (float_eqb x) seen) eqn:E.
    + intros H. destruct (IH _ _ _ _ Hl H) as (pre & post & -> & Hpre).
      exists (x :: pre), post. split; [reflexivity|].
      intros y [<-|Hy]; [|auto].
      apply existsb_exists in E as (k & Hk & Ek). exists k. split; [|exact Ek].
      apply in_or_app. now left.
    + destruct pk as [|k pk]; simpl.
      * intros [= -> <-]. exists [], l. split; [reflexivity|]. intros y [].
      * intros [= <- H]. destruct (IH _ _ _ _ Hl H) as (pre & post & -> & Hpre).
        exists (x :: pre), post. split; [reflexivity|].
        intros y [<-|Hy].
        -- exists x. split; [apply in_or_app; right; now left|].
           now apply FloatOrder.eqb_refl.
        -- destruct (Hpre y Hy) as (k & Hk & Ek). exists k. split; [|exact Ek].
           rewrite <- app_assoc in Hk. exact Hk.
Qed.

Lemma firsts_cover l : forall seen x,
  Forall not_nan l -> In x l ->
  exists k, In k (seen ++ firsts seen l) /\ (x =? k) = true.
Proof.
  induction l as [|y l IH]; intros seen x Hnn; simpl; [intros []|].
  inversion Hnn as [|? ? Hy Hl]; subst.
  destruct (existsb (float_eqb y) seen) eqn:E.
  - intros [<-|Hx]; [|now apply IH].
    apply existsb_exists in E as (k & Hk & Ek). exists k. split; [|exact Ek].
    apply in_or_app. now left.
  - intros [<-|Hx].
    + exists y. split; [apply in_or_app; right; now left|].
      now apply FloatOrder.eqb_refl.
    + destruct (IH (seen ++ [y]) x Hl Hx) as (k & Hk & Ek).
      exists k. split; [|exact Ek]. rewrite <- app_assoc in Hk. exact Hk.
Qed.

(** The most common size: it occurs at least as often as every size, and
    strictly more often than every size met before its first occurrence. *)
Lemma most_common_size_spec l :
  l <> [] -> Forall not_nan l ->
  exists pre post,
    l = pre ++ most_common_size l :: post /\
    (forall x, In x pre ->
       (occurrences x l < occurrences (most_common_size l) l)%Z) /\
    (forall x, In x l ->
       (occurrences x l <= occurrences (most_common_size l) l)%Z).
Proof.
  intros Hne Hnn. unfold most_common_size. rewrite (Counter_eq l Hnn).
  destruct (firsts [] l) as [|k0 ks] eqn:Ef.
  { destruct l as [|x l]; [congruence|]. simpl in Ef. discriminate. }
  cbn [map].
  destruct (max_count_split (map (fun k => (k, occurrences k l)) ks)
              [] (k0, occurrences k0 l) []) as (pc & qc & E & Hlt & Hle);
    try (intros y []).
  cbn [app] in E.
  set (m := max_count (k0, occurrences k0 l)
              (map (fun k => (k, occurrences k l)) ks)) in *.
  change ((k0, occurrences k0 l) :: map (fun k => (k, occurrences k l)) ks)
    with (map (fun k => (k, occurrences k l)) (k0 :: ks)) in E.
  apply map_eq_app in E as (pk & rest & Eks & Epc & Erest).
  apply map_eq_cons in Erest as (d & qk & -> & Ed & Eqc).
  assert (Hm : m = (d, occurrences d l)) by (now rewrite Ed).
  rewrite Hm in *. cbn [fst snd] in *.
  assert (Hkeys : forall k, In k (k0 :: ks) ->
            (occurrences k l <= occurrences d l)%Z /\
            (In k pk -> (occurrences k l < occurrences d l)%Z)).
  { intros k Hk. rewrite Eks in Hk. split.
    - apply in_app_iff in Hk as [Hk | [<- | Hk]].
      + apply Z.lt_le_incl.
        apply (Hlt (k, occurrences k l)). rewrite <- Epc.
        now apply (in_map (fun k => (k, occurrences k l))).
      + lia.
      + apply (Hle (k, occurrences k l)). rewrite <- Eqc.
        now apply (in_map (fun k => (k, occurrences k l))).
    - intros Hp. apply (Hlt (k, occurrences k l)). rewrite <- Epc.
      now apply (in_map (fun k => (k, occurrences k l))). }
  rewrite <- Ef in Eks.
  destruct (firsts_split l [] pk d qk Hnn Eks) as (pre & post & El & Hpre).
  exists pre, post. split; [exact El|]. split.
  - intros x Hx. destruct (Hpre x Hx) as (k & Hk & Ek). cbn [app] in Hk.
    rewrite (occurrences_equiv x k l Ek). apply Hkeys; [|exact Hk].
    rewrite <- Ef, Eks. apply in_or_app. now left.
  - intros x Hx. destruct (firsts_cover l [] x Hnn Hx) as (k & Hk & Ek).
    cbn [app] in Hk. rewrite (occurrences_equiv x k l Ek).
    apply Hkeys. now rewrite <- Ef.
Qed.

Local Close Scope float_scope.

Lemma refine_unchanged items : forall st,
  (forall it, In it items -> normal (snd it) <= fst st) ->
  fold_left refine_step items st = st.
Proof.
  induction items as [|it items IH]; intros st H; simpl; [reflexivity|].
  unfold refine_step at 2.
  destruct (Z.ltb_spec (fst st) (normal (snd it))) as [Hlt|Hge].
  - specialize (H it (or_introl eq_refl)). lia.
  - apply IH. intros it' Hin. apply H. now right.
Qed.

Lemma refine_bound n items : forall st,
  fst st < n -> (forall it, In it items -> normal (snd it) < n) ->
  fst (fold_left refine_step items st) < n.
Proof.
  induction items as [|it items IH]; intros st Hst H; simpl; [exact Hst|].
  apply IH; [|intros it' Hin; apply H; now right].
  unfold refine_step. destruct (fst st <? normal (snd it)); simpl; [|exact Hst].
  apply H. now left.
Qed.

(** The refinement stops at the first pair of largest normal count. *)
Lemma refine_first_max pre s c post b :
  0 < normal c ->
  (forall it, In it pre -> normal (snd it) < normal c) ->
  (forall it, In it post -> normal (snd it) <= normal c) ->
  fold_left refine_step (pre ++ (s, c) :: post) (0, b) = (normal c, s).
Proof.
  intros Hpos Hpre Hpost. rewrite fold_left_app. cbn [fold_left].
  pose proof (refine_bound (normal c) pre (0, b) Hpos Hpre) as Hb.
  unfold refine_step at 2. cbn [fst snd].
  destruct (Z.ltb_spec (fst (fold_left refine_step pre (0, b))) (normal c));
    [|lia].
  apply refine_unchanged. exact Hpost.
Qed.

Section BodySize.
Context {U : PyStr.Unicode}.

(** The sizes of the first scan: one per span, rounded, in scan order. *)
Lemma stats_all_sizes l : forall s s',
  for_each stats_step l s = Ok s' ->
  all_sizes s' =
  all_sizes s ++ map (fun it => PyFloat.round1 (Span.size (snd it))) l.
Proof.
  induction l as [|it l IH]; intros s s'; simpl.
  - intros [= <-]. now rewrite app_nil_r.
  - unfold stats_step at 1. destruct (is_bold (snd it)) as [b|e]; simpl;
      [|discriminate].
    intros H. apply IH in H. rewrite H. simpl. now rewrite <- app_assoc.
Qed.

(** C6. With at least one size observed (none of them NaN), the default
    body size is the most frequent size, each occurrence counted once,
    the first met winning a tie; the size of the first pair of largest
    positive normal count replaces it (sizes being positive, as the data
    model has them); the thresholds are the body size times 1.6, 1.3
    and 1.1, and they are the ones the classification uses. *)
Theorem body_size_and_thresholds (st : Stats) :
  all_sizes st <> [] ->
  Forall not_nan (all_sizes st) ->
  let sizes := all_sizes st in
  let items := style_items (font_styles st) in
  let default := most_common_size sizes in
  let body := estimate_body st in
  (exists pre post,
     sizes = pre ++ default :: post /\
     (forall x, In x pre -> occurrences x sizes < occurrences default sizes) /\
     (forall x, In x sizes -> occurrences x sizes <= occurrences default sizes)) /\
  ((forall it, In it items -> normal (snd it) <= 0) -> body = default) /\
  (forall pre size data post,
     items = pre ++ (size, data) :: post ->
     0 < normal data ->
     (forall it, In it pre -> normal (snd it) < normal data) ->
     (forall it, In it post -> normal (snd it) <= normal data) ->
     (size =? 0)%float = false ->
     body = size) /\
  thresholds body =
    {| h1_threshold := (body * 1.6)%float;
       h2_threshold := (body * 1.3)%float;
       h3_threshold := (body * 1.1)%float |} /\
  (forall doc,
     collect_stats doc = Ok st ->
     sizes = map (fun it => PyFloat.round1 (Span.size (snd it))) (doc_spans doc)) /\
  (forall stem title doc,
     collect_stats doc = Ok st -> (body =? 0)%float = false ->
     heuristic_outline stem title doc =
       (cands <- for_each (classify_step body (thresholds body))
                   (doc_spans doc) [] ;;
        Ok (sequence stem title cands))).
Proof.
  intros Hne Hnn sizes items default body.
  assert (Hnil : is_nil (all_sizes st) = false)
    by (destruct (all_sizes st); [congruence|reflexivity]).
  split; [exact (most_common_size_spec sizes Hne Hnn)|]. split.
  { intros Hno. subst body. unfold estimate_body, refine_body.
    rewrite Hnil. fold items. fold sizes. fold default.
    rewrite (refine_unchanged items (0, default) Hno). cbn [snd negb].
    destruct (default =? 0)%float; reflexivity. }
  split.
  { intros pre size data post Hitems Hpos Hpre Hpost Hsize.
    subst body. unfold estimate_body, refine_body.
    rewrite Hnil. fold items. rewrite Hitems.
    rewrite (refine_first_max pre size data post _ Hpos Hpre Hpost).
    cbn [snd]. now rewrite Hsize. }
  split; [reflexivity|]. split.
  { intros doc Hst. apply stats_all_sizes in Hst. exact Hst. }
  intros stem title doc Hst Hbody. unfold heuristic_outline.
  rewrite Hst. cbn [bind]. fold body. rewrite Hbody. reflexivity.
Qed.

(** ** What a scan that ends normally has counted *)

Lemma dict_get_in {K V} (keq : K -> K -> bool) k (d : list (K * V)) v :
  dict_get keq k d = Some v -> exists k', In (k', v) d.
Proof.
  induction d as [|[k' v'] d IH]; simpl; [discriminate|].
  destruct (keq k k').
  - intros [= ->]. exists k'. now left.
  - intros H. destruct (IH H) as [k'' Hin]. exists k''. now right.
Qed.

Lemma in_dict_set {K V} (keq : K -> K -> bool) k v (d : list (K * V)) k' v' :
  In (k', v') (dict_set keq k v d) -> v' = v \/ In (k', v') d.
Proof.
  induction d as [|[k1 v1] d IH]; simpl.
  - intros [[= <- <-]|[]]. now left.
  - destruct (keq k k1); simpl.
    + intros [[= <- <-]|H]; auto.
    + intros [H|H]; auto. destruct (IH H); auto.
Qed.

Lemma no_normal_sizes font_styles font_name :
  no_normal font_styles ->
  forall it, In it (sizes_of font_name font_styles) -> normal (snd it) = 0.
Proof.
  intros H it Hin. unfold sizes_of in Hin.
  destruct (dict_get PyStr.eqb font_name font_styles) as [sizes|] eqn:E;
    [|destruct Hin].
  apply dict_get_in in E as [k Hk]. apply H. unfold style_items.
  apply in_flat_map. exists (k, sizes). auto.
Qed.

Lemma font_styles_add_no_normal font_styles font_name size n :
  no_normal font_styles ->
  no_normal (font_styles_add font_styles font_name size true n).
Proof.
  intros H. unfold font_styles_add.
  set (fs1 := if dict_mem PyStr.eqb font_name font_styles then font_styles
              else dict_set PyStr.eqb font_name [] font_styles).
  assert (H1 : no_normal fs1).
  { subst fs1. destruct (dict_mem PyStr.eqb font_name font_styles); [exact H|].
    intros it Hin. unfold style_items in Hin.
    apply in_flat_map in Hin as ([k sizes] & Hk & Hit).
    apply in_dict_set in Hk as [->|Hk]; [destruct Hit|].
    apply H. unfold style_items. apply in_flat_map. exists (k, sizes). auto. }
  set (sizes1 := if dict_mem float_eqb size (sizes_of font_name fs1)
                 then sizes_of font_name fs1
                 else dict_set float_eqb size {| bold := 0; normal := 0 |}
                        (sizes_of font_name fs1)).
  assert (H2 : forall it, In it sizes1 -> normal (snd it) = 0).
  { subst sizes1. destruct (dict_mem float_eqb size (sizes_of font_name fs1)).
    - now apply no_normal_sizes.
    - intros [k c] Hin. apply in_dict_set in Hin as [->|Hin]; [reflexivity|].
      now apply (no_normal_sizes fs1 font_name H1 (k, c)). }
  assert (H3 : normal (counts_of size sizes1) = 0).
  { unfold counts_of. destruct (dict_get float_eqb size sizes1) as [c|] eqn:E;
      [|reflexivity].
    apply dict_get_in in E as [k Hk]. exact (H2 (k, c) Hk). }
  intros it Hin. unfold style_items in Hin.
  apply in_flat_map in Hin as ([k sizes] & Hk & Hit).
  apply in_dict_set in Hk as [->|Hk].
  - destruct it as [k' c']. apply in_dict_set in Hit as [->|Hit].
    + simpl. exact H3.
    + exact (H2 _ Hit).
  - apply H1. unfold style_items. apply in_flat_map. exists (k, sizes). auto.
Qed.

(** Since the boldness test either answers [True] or raises, a first
    scan that ends normally has counted every character as bold: no
    pair has a positive normal count and the body size is the most
    frequent size. *)
Lemma collect_stats_no_normal doc st :
  collect_stats doc = Ok st -> no_normal (font_styles st).
Proof.
  unfold collect_stats.
  apply (for_each_invariant stats_step (fun st => no_normal (font_styles st)));
    [|intros it []].
  intros s [z span] s' _ Hs. unfold stats_step. cbn [snd].
  destruct (is_bold span) as [b|e] eqn:Eb; simpl; [|discriminate].
  apply is_bold_ok in Eb as [-> _]. intros [= <-]. simpl.
  now apply font_styles_add_no_normal.
Qed.

Lemma scanned_body_is_most_common doc st :
  collect_stats doc = Ok st ->
  estimate_body st =
  if is_nil (all_sizes st) then 0%float else most_common_size (all_sizes st).
Proof.
  intros H. apply collect_stats_no_normal in H.
  unfold estimate_body, refine_body.
  destruct (is_nil (all_sizes st)); [reflexivity|].
  rewrite refine_unchanged.
  - cbn [snd negb]. destruct (_ =? _)%float; reflexivity.
  - intros it Hin. rewrite (H it Hin). simpl. lia.
Qed.


End BodySize.

Lemma body_size_and_thresholds_witness :
  most_common_size (all_sizes stats_sample) = 12%float /\
  estimate_body stats_sample = 10%float /\
  thresholds (estimate_body stats_sample) =
    {| h1_threshold := 16; h2_threshold := 13; h3_threshold := 11 |}.
Proof.
  assert (Hne : all_sizes stats_sample <> []) by (simpl; discriminate).
  assert (Hnn : Forall not_nan (all_sizes stats_sample))
    by (repeat constructor).
  destruct (body_size_and_thresholds (U := ascii_db) stats_sample Hne Hnn)
    as (_ & _ & Hover & Hth & _ & _).
  assert (Hb : estimate_body stats_sample = 10%float).
  { apply (Hover [(12%float, {| bold := 0; normal := 500 |});
                  (18%float, {| bold := 40; normal := 0 |})]
                 10%float {| bold := 0; normal := 900 |} []).
    - reflexivity.
    - simpl. lia.
    - intros it [<-|[<-|[]]]; simpl; lia.
    - intros it [].
    - reflexivity. }
  split; [vm_compute; reflexivity|]. split; [exact Hb|].
  rewrite Hth, Hb. vm_compute. reflexivity.
Defined.

(** * Further properties of the code *)

(** ** How a document ends *)

Section Outcomes.
Context {U : PyStr.Unicode}.

(** X1. A document that opens ends in one of four ways. With a native
    outline the result is its mapped entries. Without one, the [try]
    block raises the [TypeError] of the boldness test exactly when a
    text span has a font whose lowercased name lacks "bold"; otherwise
    the first scan ends normally, and the result is the empty outline
    under the title the document had before the scan when the estimated
    body size is 0.0, and the [KeyError] of line 127 when it is not. No
    other exception leaves the [try] block of a document that opened. *)
Theorem document_outcomes stem doc :
  (get_toc doc <> [] ->
   try_body stem (Ok doc) =
     Ok {| title := initial_title stem doc;
           outline := toc_outline (get_toc doc) |}) /\
  (get_toc doc = [] ->
   (try_body stem (Ok doc) = Raise int_not_iterable <->
    exists n span, text_span doc n span /\ bold_named span = false) /\
   (try_body stem (Ok doc) = Raise key_error_text <->
    exists st, collect_stats doc = Ok st /\
               (estimate_body st =? 0)%float = false) /\
   (try_body stem (Ok doc) =
      Ok {| title := initial_title stem doc; outline := [] |} <->
    exists st, collect_stats doc = Ok st /\
               (estimate_body st =? 0)%float = true) /\
   (forall data,
      try_body stem (Ok doc) = Ok data ->
      data = {| title := initial_title stem doc; outline := [] |})) /\
  (forall e,
     try_body stem (Ok doc) = Raise e ->
     e = int_not_iterable \/ e = key_error_text) /\
  (forall st,
     collect_stats doc = Ok st ->
     forall n span, text_span doc n span -> bold_named span = true).
Proof.
  split; [apply try_body_toc|]. split; [|split].
  - intros Htoc.
    destruct (heuristic_outcome stem doc Htoc)
      as [[(n & span & Hs & Hb) Ht] | (st & Est & Hall & Ht)].
    + pose proof (collect_stats_raises doc n span Hs Hb) as Hr.
      rewrite Ht. repeat split; try discriminate; eauto.
      * intros (st & Est & _). congruence.
      * intros (st & Est & _). congruence.
    + rewrite Ht. destruct (estimate_body st =? 0)%float eqn:E0;
        (split; [|split; [|split]]).
      * split; [discriminate|]. intros (n & span & Hs & Hb).
        rewrite (Hall n span Hs) in Hb. discriminate.
      * split; [discriminate|]. intros (st' & Est' & E'). congruence.
      * split; eauto.
      * intros data [= <-]. reflexivity.
      * split; [discriminate|]. intros (n & span & Hs & Hb).
        rewrite (Hall n span Hs) in Hb. discriminate.
      * split; eauto.
      * split; [discriminate|]. intros (st' & Est' & E'). congruence.
      * discriminate.
  - intros e H. now apply (try_body_raises stem doc e) in H as [_ H].
  - intros st Est n span Hs.
    apply (collect_stats_all_bold doc st Est (Z.of_nat n, span)).
    apply in_doc_spans. eauto.
Qed.

(** X13. The second scan never gets past its first span: with a text
    span in the document, a first scan that ended normally and a body
    size that is not 0.0, line 127 raises [KeyError('text')], whatever
    the spans contain, and the document gets the error artifact. *)
Theorem second_scan_raises_key_error stem doc st :
  get_toc doc = [] ->
  collect_stats doc = Ok st ->
  (estimate_body st =? 0)%float = false ->
  doc_spans doc <> [] /\
  (forall body, collect_candidates doc body = Raise key_error_text) /\
  try_body stem (Ok doc) = Raise key_error_text /\
  extract_outline_from_pdf stem (Ok doc) =
    error_artifact stem (lit "Error: 'text'").
Proof.
  intros Htoc Est E0.
  assert (Hne : doc_spans doc <> []).
  { intros E. rewrite (collect_stats_no_span doc E) in Est.
    injection Est as <-. vm_compute in E0. discriminate. }
  assert (Ht : try_body stem (Ok doc) = Raise key_error_text).
  { rewrite (try_body_heuristic stem doc Htoc), heuristic_outline_eq, Est.
    simpl. now rewrite E0. }
  split; [exact Hne|]. split; [|split; [exact Ht|]].
  - intros body. rewrite collect_candidates_eq.
    destruct (doc_spans doc); [congruence|reflexivity].
  - now rewrite (extract_of_raise _ _ _ Ht).
Qed.

(** ** Edges of the body size *)

(** X9. On the heuristic path, when the first scan ends normally (every
    font is named bold) and the most frequent rounded span size is 0.0,
    the document is taken for one without text: the result is the empty
    outline under the title the document had before the scan. *)
Theorem zero_body_size_yields_empty_outline stem doc st :
  get_toc doc = [] ->
  collect_stats doc = Ok st ->
  (most_common_size (all_sizes st) =? 0)%float = true ->
  try_body stem (Ok doc) =
    Ok {| title := initial_title stem doc; outline := [] |} /\
  extract_outline_from_pdf stem (Ok doc) =
    {| title := initial_title stem doc; outline := [] |}.
Proof.
  intros Htoc Hst Hz.
  assert (Hb : (estimate_body st =? 0)%float = true).
  { rewrite (scanned_body_is_most_common doc st Hst).
    destruct (is_nil (all_sizes st)); [reflexivity | exact Hz]. }
  assert (Ht : try_body stem (Ok doc) =
               Ok {| title := initial_title stem doc; outline := [] |}).
  { rewrite (try_body_heuristic _ _ Htoc). unfold heuristic_outline.
    rewrite Hst. cbn [bind]. now rewrite Hb. }
  split; [exact Ht|]. unfold extract_outline_from_pdf. now rewrite Ht.
Qed.

End Outcomes.

Lemma second_scan_raises_key_error_witness :
  extract_outline_from_pdf (U := ascii_db) (lit "notes") (Ok doc_all_bold) =
    {| title := lit "Processing Error for notes";
       outline := [{| Entry.level := H1; Entry.text := lit "Error: 'text'";
                      Entry.page := 1; Entry.bbox := None |}] |}.
Proof.
  destruct (collect_stats (U := ascii_db) doc_all_bold) as [st|e] eqn:Est;
    [|vm_compute in Est; discriminate].
  apply (second_scan_raises_key_error (U := ascii_db) (lit "notes")
           doc_all_bold st eq_refl Est).
  vm_compute in Est. injection Est as <-. vm_compute. reflexivity.
Defined.

Lemma zero_body_size_yields_empty_outline_witness :
  List.length (doc_spans doc_hairline) = 2%nat /\
  extract_outline_from_pdf (U := ascii_db) (lit "scan") (Ok doc_hairline) =
    {| title := lit "scan"; outline := [] |}.
Proof.
  split; [reflexivity|].
  destruct (collect_stats (U := ascii_db) doc_hairline) as [st|e] eqn:Est;
    [|vm_compute in Est; discriminate].
  apply (zero_body_size_yields_empty_outline (U := ascii_db) (lit "scan")
           doc_hairline st eq_refl Est).
  vm_compute in Est. injection Est as <-. vm_compute. reflexivity.
Defined.

(** X10. The fallback of line 92: when the pair of largest positive
    normal count has the size 0.0, the refined body size is 0.0 and the
    estimate falls back to the most frequent size. *)
Theorem zero_size_override_falls_back (st : Stats) :
  all_sizes st <> [] ->
  forall pre size data post,
    style_items (font_styles st) = pre ++ (size, data) :: post ->
    0 < normal data ->
    (forall it, In it pre -> normal (snd it) < normal data) ->
    (forall it, In it post -> normal (snd it) <= normal data) ->
    (size =? 0)%float = true ->
    refine_body (font_styles st) (most_common_size (all_sizes st)) = size /\
    estimate_body st = most_common_size (all_sizes st).
Proof.
  intros Hne pre size data post Hitems Hpos Hpre Hpost Hsize.
  assert (Hr : refine_body (font_styles st) (most_common_size (all_sizes st))
               = size).
  { unfold refine_body. rewrite Hitems.
    now rewrite (refine_first_max pre size data post _ Hpos Hpre Hpost). }
  split; [exact Hr|]. unfold estimate_body.
  destruct (all_sizes st) as [|x l] eqn:E; [congruence|].
  cbn [is_nil negb]. rewrite Hr, Hsize. reflexivity.
Qed.

Lemma zero_size_override_falls_back_witness :
  estimate_body stats_zero_override = 12%float.
Proof.
  assert (Hne : all_sizes stats_zero_override <> []) by (simpl; discriminate).
  destruct (zero_size_override_falls_back stats_zero_override Hne
              [] 0%float {| bold := 0; normal := 900 |}
              [(12%float, {| bold := 0; normal := 500 |})])
    as [_ H].
  - reflexivity.
  - simpl. lia.
  - intros it [].
  - intros it [<-|[]]. simpl. lia.
  - reflexivity.
  - rewrite H. vm_compute. reflexivity.
Defined.

(** ** The levels of the native outline *)

Section NativeLevels.
Context {U : PyStr.Unicode}.

(** X11. The level of a native entry is its depth clamped to 1..3: a
    depth of 0 or less gives H1 like depth 1, a depth of 3 or more gives
    H3; deeper entries never get a higher level than shallower ones;
    and every entry of a native-outline result has the clamped depth,
    the trimmed text and the page of an entry of the native outline. *)
Theorem native_level_is_clamped_depth :
  (forall depth,
     level_number (heading_level depth) = Z.max 1 (Z.min 3 depth)) /\
  (forall d1 d2,
     d1 <= d2 ->
     level_number (heading_level d1) <= level_number (heading_level d2)) /\
  (forall toc e,
     In e (toc_outline toc) ->
     exists depth text page,
       In (depth, text, page) toc /\
       level_number (Entry.level e) = Z.max 1 (Z.min 3 depth) /\
       Entry.text e = PyStr.strip text /\ Entry.page e = page).
Proof.
  assert (Hc : forall depth,
            level_number (heading_level depth) = Z.max 1 (Z.min 3 depth)).
  { intros depth. unfold heading_level.
    destruct (Z.eqb_spec depth 2) as [->|]; [reflexivity|].
    destruct (Z.leb_spec 3 depth); simpl; lia. }
  split; [exact Hc|]. split.
  - intros d1 d2 H. rewrite !Hc. lia.
  - intros toc e He. rewrite toc_outline_eq in He.
    apply in_map_iff in He as ([[depth text] page] & <- & Hin).
    apply filter_In in Hin as [Hin _].
    exists depth, text, page. simpl. auto.
Qed.

End NativeLevels.

(** ** What the statistics add up to *)

Lemma zsum_app l1 l2 : zsum (l1 ++ l2) = zsum l1 + zsum l2.
Proof. induction l1 as [|x l1 IH]; simpl; [reflexivity|]. rewrite IH. lia. Qed.

(** Lookups after an update, for a key comparison that is symmetric
    and transitive. *)
Section DictLaws.
Context {K V : Type} (keq : K -> K -> bool).
Hypothesis keq_sym : forall a b, keq a b = keq b a.
Hypothesis keq_trans :
  forall a b c, keq a b = true -> keq b c = true -> keq a c = true.

Lemma dict_get_set k v k' (d : list (K * V)) :
  dict_get keq k' (dict_set keq k v d) =
  if keq k' k then Some v else dict_get keq k' d.
Proof.
  induction d as [|[k0 v0] d IH]; simpl.
  - destruct (keq k' k); reflexivity.
  - destruct (keq k k0) eqn:E0; simpl.
    + destruct (keq k' k0) eqn:E1, (keq k' k) eqn:E2; auto.
      * rewrite keq_sym in E0. now rewrite (keq_trans _ _ _ E1 E0) in E2.
      * now rewrite (keq_trans _ _ _ E2 E0) in E1.
    + destruct (keq k' k0) eqn:E1; [|exact IH].
      destruct (keq k' k) eqn:E2; [|reflexivity].
      rewrite keq_sym in E2. now rewrite (keq_trans _ _ _ E2 E1) in E0.
Qed.

Lemma dict_get_congr k k' (d : list (K * V)) :
  keq k' k = true -> dict_get keq k' d = dict_get keq k d.
Proof.
  intros E. induction d as [|[k0 v0] d IH]; simpl; [reflexivity|].
  destruct (keq k' k0) eqn:E1, (keq k k0) eqn:E2; auto.
  - rewrite keq_sym in E. now rewrite (keq_trans _ _ _ E E1) in E2.
  - now rewrite (keq_trans _ _ _ E E2) in E1.
Qed.

(** Making sure that a key is there changes no lookup that finds
    [default] where the key is missing. *)
Lemma dict_get_ensure k default k' (d : list (K * V)) :
  match dict_get keq k'
          (if dict_mem keq k d then d else dict_set keq k default d) with
  | Some v => v
  | None => default
  end =
  match dict_get keq k' d with Some v => v | None => default end.
Proof.
  unfold dict_mem. destruct (dict_get keq k d) as [v|] eqn:E; [reflexivity|].
  rewrite dict_get_set. destruct (keq k' k) eqn:E1; [|reflexivity].
  now rewrite (dict_get_congr k k' d E1), E.
Qed.
End DictLaws.

Lemma pystr_eqb_sym a b : PyStr.eqb a b = PyStr.eqb b a.
Proof.
  destruct (PyStr.eqb a b) eqn:E1, (PyStr.eqb b a) eqn:E2; auto.
  - apply pystr_eqb_eq in E1 as ->. now rewrite pystr_eqb_refl in E2.
  - apply pystr_eqb_eq in E2 as ->. now rewrite pystr_eqb_refl in E1.
Qed.

Lemma pystr_eqb_trans a b c :
  PyStr.eqb a b = true -> PyStr.eqb b c = true -> PyStr.eqb a c = true.
Proof. rewrite !pystr_eqb_eq. congruence. Qed.

Lemma sizes_of_ensure font_name g font_styles :
  sizes_of g (if dict_mem PyStr.eqb font_name font_styles then font_styles
              else dict_set PyStr.eqb font_name [] font_styles) =
  sizes_of g font_styles.
Proof.
  unfold sizes_of.
  apply (dict_get_ensure PyStr.eqb pystr_eqb_sym pystr_eqb_trans).
Qed.

Lemma counts_of_ensure size t sizes :
  counts_of t (if dict_mem float_eqb size sizes then sizes
               else dict_set float_eqb size {| bold := 0; normal := 0 |} sizes) =
  counts_of t sizes.
Proof.
  unfold counts_of.
  apply (dict_get_ensure float_eqb FloatOrder.eqb_sym FloatOrder.eqb_trans).
Qed.

(** Lines 70-75, counter by counter: the counter of the span's font
    name and size gets the characters, under the span's boldness; every
    other counter is as it was. *)
Lemma font_styles_add_count_at font_styles font_name size b n f s :
  count_at f s (font_styles_add font_styles font_name size b n) =
  if (PyStr.eqb f font_name && (s =? size)%float)%bool
  then add_chars b n (count_at f s font_styles)
  else count_at f s font_styles.
Proof.
  unfold font_styles_add, count_at.
  set (fs1 := if dict_mem PyStr.eqb font_name font_styles then font_styles
              else dict_set PyStr.eqb font_name [] font_styles).
  set (sizes1 := if dict_mem float_eqb size (sizes_of font_name fs1)
                 then sizes_of font_name fs1
                 else dict_set float_eqb size {| bold := 0; normal := 0 |}
                        (sizes_of font_name fs1)).
  assert (H1 : forall g, sizes_of g fs1 = sizes_of g font_styles)
    by (intros g; apply sizes_of_ensure).
  assert (H2 : forall t, counts_of t sizes1 = counts_of t (sizes_of font_name fs1))
    by (intros t; apply counts_of_ensure).
  unfold sizes_of at 1.
  rewrite (dict_get_set PyStr.eqb pystr_eqb_sym pystr_eqb_trans).
  destruct (PyStr.eqb f font_name) eqn:Ef; cbn [andb].
  - apply pystr_eqb_eq in Ef as ->. unfold counts_of at 1.
    rewrite (dict_get_set float_eqb FloatOrder.eqb_sym FloatOrder.eqb_trans).
    unfold float_eqb at 1. destruct (s =? size)%float eqn:Es.
    + unfold add_chars. rewrite H2, H1.
      replace (counts_of size (sizes_of font_name font_styles))
        with (counts_of s (sizes_of font_name font_styles)); [reflexivity|].
      unfold counts_of.
      now rewrite (dict_get_congr float_eqb FloatOrder.eqb_sym
                     FloatOrder.eqb_trans size s _ Es).
    + fold (counts_of s sizes1). now rewrite H2, H1.
  - fold (sizes_of f fs1). now rewrite H1.
Qed.

Section Weights.
Context {K V : Type} (keq : K -> K -> bool) (w : V -> Z).

(** Storing [v] under [k] replaces the weight found under [k] by that
    of [v]. *)
Lemma weight_dict_set k v (d : list (K * V)) :
  weight w (dict_set keq k v d) = weight w d - weight_at keq w k d + w v.
Proof.
  unfold weight, weight_at. induction d as [|[k' v'] d IH]; simpl; [lia|].
  destruct (keq k k'); simpl; lia.
Qed.

Lemma weight_at_absent k (d : list (K * V)) :
  dict_mem keq k d = false -> weight_at keq w k d = 0.
Proof.
  unfold dict_mem, weight_at. now destruct (dict_get keq k d).
Qed.
End Weights.

Section Totals.
Variable f : Counts -> Z.
Hypothesis f_zero : f {| bold := 0; normal := 0 |} = 0.

Lemma total_nested font_styles :
  total f font_styles = weight (weight f) font_styles.
Proof.
  unfold total, style_items, weight.
  induction font_styles as [|[k sizes] l IH]; simpl; [reflexivity|].
  now rewrite map_app, zsum_app, IH.
Qed.

Lemma weight_sizes_of font_name font_styles :
  weight_at PyStr.eqb (weight f) font_name font_styles =
  weight f (sizes_of font_name font_styles).
Proof.
  unfold weight_at, sizes_of.
  now destruct (dict_get PyStr.eqb font_name font_styles).
Qed.

Lemma weight_counts_of size sizes :
  weight_at float_eqb f size sizes = f (counts_of size sizes).
Proof.
  unfold weight_at, counts_of.
  destruct (dict_get float_eqb size sizes); [reflexivity|].
  now rewrite f_zero.
Qed.

(** Lines 70-75 change the total by what they add to the one counter
    they update. *)
Lemma font_styles_add_total font_styles font_name size b n :
  exists c,
    total f (font_styles_add font_styles font_name size b n) =
    total f font_styles
    + f (if b then {| bold := bold c + n; normal := normal c |}
         else {| bold := bold c; normal := normal c + n |})
    - f c.
Proof.
  unfold font_styles_add.
  set (fs1 := if dict_mem PyStr.eqb font_name font_styles then font_styles
              else dict_set PyStr.eqb font_name [] font_styles).
  set (sizes1 := if dict_mem float_eqb size (sizes_of font_name fs1)
                 then sizes_of font_name fs1
                 else dict_set float_eqb size {| bold := 0; normal := 0 |}
                        (sizes_of font_name fs1)).
  exists (counts_of size sizes1).
  assert (H1 : weight (weight f) fs1 = weight (weight f) font_styles).
  { subst fs1. destruct (dict_mem PyStr.eqb font_name font_styles) eqn:E;
      [reflexivity|].
    rewrite weight_dict_set, (weight_at_absent _ _ _ _ E). unfold weight at 3.
    simpl. lia. }
  assert (H2 : weight f sizes1 = weight f (sizes_of font_name fs1)).
  { subst sizes1.
    destruct (dict_mem float_eqb size (sizes_of font_name fs1)) eqn:E;
      [reflexivity|].
    rewrite weight_dict_set, (weight_at_absent _ _ _ _ E), f_zero. lia. }
  rewrite !total_nested, weight_dict_set, weight_sizes_of, weight_dict_set,
    weight_counts_of, H1, H2.
  lia.
Qed.
End Totals.

Lemma font_styles_add_bold font_styles font_name size b n :
  bold_total (font_styles_add font_styles font_name size b n) =
  bold_total font_styles + (if b then n else 0).
Proof.
  destruct (font_styles_add_total bold eq_refl font_styles font_name size b n)
    as [c H].
  unfold bold_total. fold (total bold font_styles).
  fold (total bold (font_styles_add font_styles font_name size b n)).
  rewrite H. destruct b; simpl; lia.
Qed.

Lemma font_styles_add_normal font_styles font_name size b n :
  normal_total (font_styles_add font_styles font_name size b n) =
  normal_total font_styles + (if b then 0 else n).
Proof.
  destruct (font_styles_add_total normal eq_refl font_styles font_name size b n)
    as [c H].
  unfold normal_total. fold (total normal font_styles).
  fold (total normal (font_styles_add font_styles font_name size b n)).
  rewrite H. destruct b; simpl; lia.
Qed.

Section StatsScan.
Context {U : PyStr.Unicode}.

Lemma stats_bold_total l : forall s s',
  for_each stats_step l s = Ok s' ->
  bold_total (font_styles s') =
  bold_total (font_styles s)
  + zsum (map (fun it => PyStr.len (Span.text (snd it))) l).
Proof.
  induction l as [|it l IH]; intros s s'; simpl.
  - intros [= <-]. lia.
  - unfold stats_step at 1. destruct (is_bold (snd it)) as [b|e] eqn:Eb; simpl;
      [|discriminate].
    apply is_bold_ok in Eb as [-> _]. intros H. apply IH in H. rewrite H.
    simpl. rewrite font_styles_add_bold. lia.
Qed.

Lemma zsum_all_zero (l : list (float * Counts)) :
  (forall it, In it l -> normal (snd it) = 0) ->
  zsum (map (fun it => normal (snd it)) l) = 0.
Proof.
  induction l as [|it l IH]; intros H; simpl; [reflexivity|].
  rewrite (H it (or_introl eq_refl)), IH; [reflexivity|].
  intros it' Hin. apply H. now right.
Qed.

Lemma add_chars_more n m c :
  add_chars true m (add_chars true n c) = add_chars true (n + m) c.
Proof. unfold add_chars. simpl. f_equal. lia. Qed.

Lemma stats_count_at l : forall s s',
  for_each stats_step l s = Ok s' ->
  forall f z,
    count_at f z (font_styles s') =
    add_chars true (chars_for f z l) (count_at f z (font_styles s)).
Proof.
  induction l as [|it l IH]; intros s s'; simpl.
  - intros [= <-] f z. unfold add_chars, chars_for. simpl.
    destruct (count_at f z (font_styles s)) as [cb cn]. simpl. f_equal. lia.
  - unfold stats_step at 1.
    destruct (is_bold (snd it)) as [b|e] eqn:Eb; simpl; [|discriminate].
    apply is_bold_ok in Eb as [-> _]. intros H f z.
    rewrite (IH _ _ H f z). cbn [font_styles].
    rewrite font_styles_add_count_at. unfold chars_for. cbn [filter].
    unfold counts_for at 2.
    destruct (PyStr.eqb f (Span.font (snd it))
              && (z =? PyFloat.round1 (Span.size (snd it)))%float)%bool.
    + cbn [map zsum fold_right]. now rewrite add_chars_more.
    + reflexivity.
Qed.

(** X2. Lines 70-75 add the number of characters of the span's text to
    the counter of the span's font name, rounded size and boldness, and
    leave every other counter as it is; the totals over all counters
    grow by that number. A first scan that ends normally has therefore
    counted, for each font name and size, the characters of the spans
    of that font and size, all of them as bold and none as normal, and
    has recorded the rounded size of every span in scan order. *)
Theorem statistics_count_every_character :
  (forall font_styles font_name size b n f s,
     count_at f s (font_styles_add font_styles font_name size b n) =
     if (PyStr.eqb f font_name && (s =? size)%float)%bool
     then add_chars b n (count_at f s font_styles)
     else count_at f s font_styles) /\
  (forall font_styles font_name size b n,
     bold_total (font_styles_add font_styles font_name size b n) =
       bold_total font_styles + (if b then n else 0) /\
     normal_total (font_styles_add font_styles font_name size b n) =
       normal_total font_styles + (if b then 0 else n)) /\
  (forall doc st,
     collect_stats doc = Ok st ->
     (forall f s,
        count_at f s (font_styles st) =
        {| bold := chars_for f s (doc_spans doc); normal := 0 |}) /\
     bold_total (font_styles st) =
       zsum (map (fun it => PyStr.len (Span.text (snd it))) (doc_spans doc)) /\
     normal_total (font_styles st) = 0 /\
     all_sizes st =
       map (fun it => PyFloat.round1 (Span.size (snd it))) (doc_spans doc)).
Proof.
  split; [exact font_styles_add_count_at|]. split.
  - intros. split; [apply font_styles_add_bold | apply font_styles_add_normal].
  - intros doc st H. split; [|split; [|split]].
    + intros f s. unfold collect_stats in H.
      rewrite (stats_count_at _ _ _ H f s). reflexivity.
    + unfold collect_stats in H. apply stats_bold_total in H. exact H.
    + apply zsum_all_zero. exact (collect_stats_no_normal doc st H).
    + unfold collect_stats in H. apply stats_all_sizes in H. exact H.
Qed.

End StatsScan.

Lemma statistics_count_every_character_witness :
  exists st,
    collect_stats (U := ascii_db) doc_all_bold = Ok st /\
    count_at (lit "Arial-Bold") 10 (font_styles st) =
      {| bold := 38; normal := 0 |} /\
    count_at (lit "Arial-Bold") 12 (font_styles st) =
      {| bold := 0; normal := 0 |} /\
    bold_total (font_styles st) = 74 /\ normal_total (font_styles st) = 0 /\
    all_sizes st = [20; 18; 10; 10; 10.5]%float.
Proof.
  destruct (collect_stats (U := ascii_db) doc_all_bold) as [st|e] eqn:E;
    [|vm_compute in E; discriminate].
  exists st. split; [reflexivity|].
  destruct (statistics_count_every_character (U := ascii_db)) as (_ & _ & H).
  destruct (H doc_all_bold st E) as (Hc & Hb & Hn & Hl).
  split; [rewrite Hc; vm_compute; reflexivity|].
  split; [rewrite Hc; vm_compute; reflexivity|].
  split; [rewrite Hb; reflexivity|]. split; [exact Hn|].
  rewrite Hl. vm_compute. reflexivity.
Defined.

(** ** The texts of the entries *)

Section Texts.
Context {U : PyStr.Unicode}.

Lemma rstrip_idempotent s : PyStr.rstrip (PyStr.rstrip s) = PyStr.rstrip s.
Proof.
  induction s as [|c r IH]; [reflexivity|].
  cbn [PyStr.rstrip].
  destruct (PyStr.isspace c && PyStr.is_empty (PyStr.rstrip r))%bool
    eqn:E; [reflexivity|].
  cbn [PyStr.rstrip]. rewrite IH, E. reflexivity.
Qed.

Lemma lstrip_head s : head_is PyStr.isspace (PyStr.lstrip s) = false.
Proof.
  induction s as [|c r IH]; [reflexivity|].
  simpl. destruct (PyStr.isspace c) eqn:E; [exact IH|].
  simpl. exact E.
Qed.

Lemma lstrip_fixed s :
  head_is PyStr.isspace s = false -> PyStr.lstrip s = s.
Proof. destruct s as [|c r]; simpl; [reflexivity|]. now intros ->. Qed.

Lemma rstrip_head s :
  head_is PyStr.isspace s = false ->
  head_is PyStr.isspace (PyStr.rstrip s) = false.
Proof.
  destruct s as [|c r]; simpl; [reflexivity|]. intros E. rewrite E. simpl.
  exact E.
Qed.

(** Trimming a trimmed string changes nothing. *)
Lemma strip_idempotent s : PyStr.strip (PyStr.strip s) = PyStr.strip s.
Proof.
  unfold PyStr.strip.
  rewrite (lstrip_fixed (PyStr.rstrip (PyStr.lstrip s))).
  - apply rstrip_idempotent.
  - apply rstrip_head, lstrip_head.
Qed.

Lemma strip_no_space_at_ends s :
  PyStr.lstrip (PyStr.strip s) = PyStr.strip s /\
  PyStr.rstrip (PyStr.strip s) = PyStr.strip s.
Proof.
  unfold PyStr.strip. split.
  - apply lstrip_fixed, rstrip_head, lstrip_head.
  - apply rstrip_idempotent.
Qed.

Lemma toc_entries_trimmed toc e :
  In e (toc_outline toc) ->
  (exists s, Entry.text e = PyStr.strip s) /\
  existsb PyStr.isalpha (Entry.text e) = true.
Proof.
  rewrite toc_outline_eq. intros H.
  apply in_map_iff in H as ([[level text] page] & <- & Hin).
  apply filter_In in Hin as [_ Hk]. unfold toc_kept, toc_keep in Hk.
  simpl in *. apply andb_true_iff in Hk as [_ Hk].
  split; [now exists text | exact Hk].
Qed.

(** A normal result of a document without native outline has no
    entry. *)
Lemma try_body_ok stem doc data :
  try_body stem (Ok doc) = Ok data ->
  data = {| title := initial_title stem doc;
            outline := toc_outline (get_toc doc) |}.
Proof.
  intros H.
  assert (Hd : get_toc doc = [] \/ get_toc doc <> [])
    by (destruct (get_toc doc); [now left | right; discriminate]).
  destruct Hd as [Htoc | Htoc].
  - rewrite Htoc. simpl.
    destruct (heuristic_outcome stem doc Htoc)
      as [[_ Hr] | (st & _ & _ & Hr)]; rewrite Hr in H; [discriminate|].
    destruct (estimate_body st =? 0)%float; congruence.
  - rewrite (try_body_toc stem doc Htoc) in H. congruence.
Qed.

(** X3. In every normal result of the [try] block the text of an entry
    is a trimmed text: trimming it again changes nothing, it neither
    starts nor ends with white space, it is not empty and it has an
    alphabetic character. (The entries are those of the native outline:
    a normal result of the heuristic path has none.) *)
Theorem entry_texts_are_trimmed stem doc data :
  try_body stem (Ok doc) = Ok data ->
  Forall (fun e =>
            PyStr.strip (Entry.text e) = Entry.text e /\
            PyStr.lstrip (Entry.text e) = Entry.text e /\
            PyStr.rstrip (Entry.text e) = Entry.text e /\
            Entry.text e <> [] /\
            exists c, In c (Entry.text e) /\ PyStr.isalpha c = true)
    (outline data).
Proof.
  intros H. rewrite (try_body_ok stem doc data H). cbn [outline].
  apply Forall_forall. intros e He.
  destruct (toc_entries_trimmed _ _ He) as [[s Es] Ha].
  destruct (strip_no_space_at_ends s) as [H1 H2].
  apply existsb_exists in Ha as (c & Hc & Hal).
  rewrite Es in *. split; [apply strip_idempotent|].
  split; [exact H1|]. split; [exact H2|]. split; [|eauto].
  intros E. rewrite E in Hc. destruct Hc.
Qed.

(** ** The title *)

Lemma initial_title_nonempty stem doc :
  PyStr.is_empty stem = false ->
  PyStr.is_empty (initial_title stem doc) = false.
Proof.
  intros H. rewrite initial_title_eq.
  destruct (metadata_title doc) as [t|]; [|exact H].
  destruct (PyStr.is_empty (PyStr.strip t)) eqn:E; [exact H | exact E].
Qed.

(** X4. Whatever happens to the document (it cannot be opened, a scan
    raises, it has a native outline or none, text or none), the title
    of the artifact is not empty, the stem of the file name being not
    empty. *)
Theorem title_is_never_empty stem opened :
  PyStr.is_empty stem = false ->
  PyStr.is_empty (title (extract_outline_from_pdf stem opened)) = false.
Proof.
  intros Hstem.
  destruct (extract_cases stem opened)
    as [(e & _ & ->) | [(doc & _ & _ & ->) | (doc & _ & _ & ->)]].
  - unfold handle. destruct (exn_cls e); reflexivity.
  - now apply initial_title_nonempty.
  - now apply initial_title_nonempty.
Qed.

(** X5. The title of a normal result is the title the document had
    before the outline was built: the metadata title, trimmed, when
    that is not empty, and the stem of the file name otherwise. (Lines
    178-185 replace the title only with a non-empty heuristic outline,
    which no run has.) *)
Theorem title_of_normal_result stem doc data :
  try_body stem (Ok doc) = Ok data ->
  title data =
    match metadata_title doc with
    | Some t => if PyStr.is_empty (PyStr.strip t) then stem else PyStr.strip t
    | None => stem
    end /\
  (get_toc doc = [] -> outline data = []) /\
  extract_outline_from_pdf stem (Ok doc) = data.
Proof.
  intros H. rewrite (extract_of_ok _ _ _ H).
  rewrite (try_body_ok stem doc data H). cbn [title outline].
  split; [apply initial_title_eq|]. split; [|reflexivity].
  now intros ->.
Qed.

(** ** The batch *)

(** X6. The batch writes, in the order of the input files, the artifact
    of every file whose output can be written, under the name of the
    stem followed by ".json": a file that cannot be written is the only
    one left out, no file is written twice, and a batch in which every
    write succeeds writes one artifact per input file. *)
Theorem batch_writes_one_artifact_per_file :
  (forall writable pdf_files,
     process_pdfs writable pdf_files =
     map output_of (filter (fun f => writable (fst (output_of f))) pdf_files)) /\
  (forall writable pdf_files,
     (List.length (process_pdfs writable pdf_files)
      <= List.length pdf_files)%nat) /\
  (forall pdf_files,
     process_pdfs (fun _ => true) pdf_files = map output_of pdf_files) /\
  (forall writable pdf_files name data,
     In (name, data) (process_pdfs writable pdf_files) ->
     writable name = true /\
     exists f, In f pdf_files /\ name = stem f ++ lit ".json" /\
               data = extract_outline_from_pdf (stem f) (opened f)).
Proof.
  assert (E : forall writable pdf_files,
     process_pdfs writable pdf_files =
     map output_of (filter (fun f => writable (fst (output_of f))) pdf_files)).
  { intros writable pdf_files. induction pdf_files as [|f l IH]; [reflexivity|].
    rewrite process_pdfs_cons, IH. unfold process_one. cbn [filter].
    change (fst (output_of f)) with (stem f ++ lit ".json").
    destruct (writable (stem f ++ lit ".json")); reflexivity. }
  split; [exact E|]. split; [|split].
  - intros writable pdf_files. rewrite E, length_map. apply filter_length_le.
  - intros pdf_files. rewrite E. f_equal.
    induction pdf_files as [|f l IH]; simpl; [reflexivity|]. now rewrite IH.
  - intros writable pdf_files name data H. rewrite E in H.
    apply in_map_iff in H as (f & Hf & Hin). apply filter_In in Hin as [Hin Hw].
    unfold output_of in Hf. injection Hf as <- <-.
    split; [exact Hw|]. exists f. auto.
Qed.

End Texts.

Lemma entry_texts_are_trimmed_witness :
  Forall (fun e => PyStr.strip (U := ascii_db) (Entry.text e) = Entry.text e /\
                   Entry.text e <> [])
    (outline (extract_outline_from_pdf (U := ascii_db) (lit "paper")
                (Ok {| metadata_title := None;
                       get_toc := [(1, lit "  Introduction ", 1);
                                   (2, lit " 2.1 ", 1);
                                   (2, lit "Details", 2)];
                       pages := [] |}))).
Proof.
  eapply Forall_impl;
    [|apply (entry_texts_are_trimmed (U := ascii_db) (lit "paper")
               {| metadata_title := None;
                  get_toc := [(1, lit "  Introduction ", 1);
                              (2, lit " 2.1 ", 1);
                              (2, lit "Details", 2)];
                  pages := [] |}); reflexivity].
  intros e (H1 & _ & _ & H2 & _). split; [exact H1 | exact H2].
Defined.

Lemma title_is_never_empty_witness :
  PyStr.is_empty
    (title (extract_outline_from_pdf (U := ascii_db) (lit "notes")
              (Ok doc_all_bold))) = false /\
  PyStr.is_empty
    (title (extract_outline_from_pdf (U := ascii_db) (lit "notes")
              (Ok doc_helvetica))) = false.
Proof.
  split; apply title_is_never_empty; reflexivity.
Defined.

Lemma title_of_normal_result_witness :
  title (extract_outline_from_pdf (U := ascii_db) (lit "paper")
           (Ok (doc_scenario_a (Some (lit "  Handbook "))))) = lit "Handbook" /\
  title (extract_outline_from_pdf (U := ascii_db) (lit "scan")
           (Ok doc_titled_empty)) = lit "Annual Report".
Proof.
  split.
  - destruct (title_of_normal_result (U := ascii_db) (lit "paper")
                (doc_scenario_a (Some (lit "  Handbook "))) _ eq_refl)
      as (Ht & _ & _).
    exact Ht.
  - destruct (title_of_normal_result (U := ascii_db) (lit "scan")
                doc_titled_empty _ eq_refl)
      as (Ht & _ & _).
    exact Ht.
Defined.
